(** * pg_replication.decoders: a shallow embedding of the pgoutput decoder

    The Python module [pg_replication/decoders.py] turns one buffered
    logical-replication message into a typed message object.  Every
    decoder walks an [io.BytesIO] cursor with a handful of read helpers.

    The embedding follows the module top to bottom: the byte level
    ([int.from_bytes], [bytes.decode]), the cursor, the read helpers of
    [PgoutputMessage], the tuple-data reader and the seven message
    classes.  Python exceptions become an error result, the cursor is
    passed explicitly, and the one unbounded [while] loop takes fuel. *)

From Stdlib Require Import String Ascii.
From Stdlib Require Import Strings.Byte.
From Stdlib Require Import List ZArith Bool Lia.
Import ListNotations.

Local Open Scope Z_scope.

(** ** Bytes and Python strings *)

Definition byte_to_Z (b : byte) : Z := Z.of_N (Byte.to_N b).

(** A Python [str] is a sequence of Unicode code points. *)
Definition str := list Z.

(** The code points of an ASCII literal of the source, such as ["n"]. *)
Definition lit (s : string) : str :=
  map (fun a => Z.of_N (N_of_ascii a)) (list_ascii_of_string s).

Fixpoint str_eqb (s t : str) : bool :=
  match s, t with
  | [], [] => true
  | c :: s', d :: t' => (c =? d) && str_eqb s' t'
  | _, _ => false
  end.

(** [x in (a, b, ...)] on strings. *)
Definition str_in (s : str) (l : list str) : bool := existsb (str_eqb s) l.

(** Number of bytes of the UTF-8 encoding of a code point, and of a string
    ([len(s.encode("utf-8"))]). *)
Definition utf8_width (c : Z) : nat :=
  if c <? 128 then 1%nat
  else if c <? 2048 then 2%nat
  else if c <? 65536 then 3%nat
  else 4%nat.

Definition utf8_len (s : str) : nat :=
  fold_right (fun c n => (utf8_width c + n)%nat) 0%nat s.

(** ** Outcomes

    [Raise] carries the exception a decode ends with.  The constructors
    are named after the failure they report; the comment gives the Python
    exception and the raise site. *)

Inductive DecodeError : Type :=
  | TagMismatch (expected actual : str)
      (* ValueError("first byte in buffer does not match ... message") *)
  | ExpectedNewTupleMarker (position : nat) (found : str)
      (* ValueError("did not find new_tuple_byte ('N') ...") in Update *)
  | InvalidReplicaIdentityOrMessageTag (got : str)
      (* ValueError("message type byte is not 'K' or 'O' ...") in Delete *)
  | InvalidEncoding
      (* UnicodeDecodeError out of bytes.decode("utf-8") *)
  | DateValueOutOfRange
      (* OverflowError out of datetime + timedelta *)
  | UnexpectedEndOfBuffer
      (* raised nowhere in decoders.py; see [dispatch] *)
  | InvalidColumnCategory
      (* raised nowhere in decoders.py *)
  | UnsupportedMessageType.
      (* raised nowhere in decoders.py; see [dispatch] *)

Inductive outcome (A : Type) : Type :=
  | Ok (a : A)
  | Raise (e : DecodeError)
  | OutOfFuel.

Arguments Ok {A} a.
Arguments Raise {A} e.
Arguments OutOfFuel {A}.

(** ** io.BytesIO

    The buffer and the read position.  Nothing in the module seeks or
    writes, so the position only moves forward through [read]. *)

Record BytesIO : Type := mkBytesIO {
  getvalue : list byte;
  tell : nat
}.

Definition open (buffer : list byte) : BytesIO := mkBytesIO buffer 0.

(** The bytes not yet read. *)
Definition remaining (io : BytesIO) : list byte :=
  skipn (tell io) (getvalue io).

(** [buffer[lo:hi]] for [0 <= lo <= hi]. *)
Definition slice (lo hi : nat) (buffer : list byte) : list byte :=
  firstn (hi - lo) (skipn lo buffer).

(** Decoders are functions from the cursor to an outcome and the new
    cursor. *)
Definition M (A : Type) : Type := BytesIO -> outcome (A * BytesIO).

Definition ret {A} (a : A) : M A := fun io => Ok (a, io).

Definition bind {A B} (m : M A) (k : A -> M B) : M B :=
  fun io =>
    match m io with
    | Ok (a, io') => k a io'
    | Raise e => Raise e
    | OutOfFuel => OutOfFuel
    end.

Definition raise {A} (e : DecodeError) : M A := fun _ => Raise e.

Definition out_of_fuel {A} : M A := fun _ => OutOfFuel.

Notation "x <- m ;; k" := (bind m (fun x => k))
  (at level 61, m at next level, right associativity).
Notation "m ;;; k" := (bind m (fun _ => k))
  (at level 61, right associativity).

(** [for _ in range(n): acc = body(acc)], with [range(n)] empty for
    [n <= 0]. *)
Fixpoint repeat_M {A} (count : nat) (body : A -> M A) (acc : A) : M A :=
  match count with
  | O => ret acc
  | S count' => acc' <- body acc ;; repeat_M count' body acc'
  end.

Definition for_range {A} (n : Z) (body : A -> M A) (acc : A) : M A :=
  repeat_M (Z.to_nat n) body acc.

(** [BytesIO.read(size)]: a negative size, or one larger than what is
    left, is adjusted to what is left; the read never fails. *)
Definition read (size : Z) : M (list byte) :=
  fun io =>
    let n := Z.of_nat (length (getvalue io)) - Z.of_nat (tell io) in
    let size := if (size <? 0) || (n <? size) then Z.max n 0 else size in
    Ok (firstn (Z.to_nat size) (remaining io),
        mkBytesIO (getvalue io) (tell io + Z.to_nat size)).

(** ** Module-level helpers *)

Definition INT8 : Z := 1.
Definition INT16 : Z := 2.
Definition INT32 : Z := 4.
Definition INT64 : Z := 8.

(** A [datetime] with [tzinfo=utc]: the instant, in microseconds since
    0001-01-01T00:00:00 UTC ([datetime.min]). *)
Record datetime : Type := mkDatetime { micros : Z }.

Definition micros_per_day : Z := 86400 * 1000000.

(** [datetime(y, 1, 1, tzinfo=utc)] through the proleptic Gregorian
    ordinal of January 1st of year [y]. *)
Definition days_before_year (y : Z) : Z :=
  let p := y - 1 in p * 365 + p / 4 - p / 100 + p / 400.

Definition datetime_jan1 (y : Z) : datetime :=
  mkDatetime (days_before_year y * micros_per_day).

(** [datetime.max] is 9999-12-31T23:59:59.999999. *)
Definition datetime_max_micros : Z :=
  days_before_year 10000 * micros_per_day - 1.

(** [datetime + timedelta(microseconds=us)]; the sum must stay within
    years 1..9999, or Python raises OverflowError. *)
Definition datetime_add (d : datetime) (us : Z) : outcome datetime :=
  let r := micros d + us in
  if (0 <=? r) && (r <=? datetime_max_micros) then Ok (mkDatetime r)
  else Raise DateValueOutOfRange.

Definition convert_pg_ts (_ts_in_microseconds : Z) : outcome datetime :=
  let ts := datetime_jan1 2000 in
  datetime_add ts _ts_in_microseconds.

(** [int.from_bytes(b, byteorder="big", signed=False)]. *)
Fixpoint unsigned_be (acc : Z) (bs : list byte) : Z :=
  match bs with
  | [] => acc
  | b :: bs' => unsigned_be (acc * 256 + byte_to_Z b) bs'
  end.

(** [int.from_bytes(b, byteorder="big", signed=True)]: two's complement
    over the bytes that are there; the empty byte string gives 0. *)
Definition convert_bytes_to_int (_in_bytes : list byte) : Z :=
  let u := unsigned_be 0 _in_bytes in
  let w := 8 * Z.of_nat (length _in_bytes) in
  match _in_bytes with
  | [] => 0
  | b :: _ => if 128 <=? byte_to_Z b then u - 2 ^ w else u
  end.

(** [bytes.decode("utf-8")] with strict error handling: shortest-form
    sequences only, no surrogates, nothing above U+10FFFF, no stray or
    missing continuation byte. *)
Definition is_cont (z : Z) : bool := (128 <=? z) && (z <=? 191).

Definition in_range (lo hi z : Z) : bool := (lo <=? z) && (z <=? hi).

(** Admissible second byte after the lead byte [z0] of a three-byte or a
    four-byte sequence. *)
Definition second_ok (z0 z1 : Z) : bool :=
  if z0 =? 224 then in_range 160 191 z1
  else if z0 =? 237 then in_range 128 159 z1
  else if z0 =? 240 then in_range 144 191 z1
  else if z0 =? 244 then in_range 128 143 z1
  else is_cont z1.

Fixpoint utf8_decode (bs : list byte) : option str :=
  match bs with
  | [] => Some []
  | b0 :: r0 =>
    let z0 := byte_to_Z b0 in
    if z0 <? 128 then option_map (cons z0) (utf8_decode r0)
    else
      match r0 with
      | [] => None
      | b1 :: r1 =>
        let z1 := byte_to_Z b1 in
        if in_range 194 223 z0 then
          if is_cont z1
          then option_map (cons ((z0 - 192) * 64 + (z1 - 128))) (utf8_decode r1)
          else None
        else
          match r1 with
          | [] => None
          | b2 :: r2 =>
            let z2 := byte_to_Z b2 in
            if in_range 224 239 z0 then
              if second_ok z0 z1 && is_cont z2
              then option_map
                     (cons ((z0 - 224) * 4096 + (z1 - 128) * 64 + (z2 - 128)))
                     (utf8_decode r2)
              else None
            else
              match r2 with
              | [] => None
              | b3 :: r3 =>
                let z3 := byte_to_Z b3 in
                if in_range 240 244 z0 then
                  if second_ok z0 z1 && is_cont z2 && is_cont z3
                  then option_map
                         (cons ((z0 - 240) * 262144 + (z1 - 128) * 4096
                                + (z2 - 128) * 64 + (z3 - 128)))
                         (utf8_decode r3)
                  else None
                else None
              end
          end
      end
  end.

Definition convert_bytes_to_utf8 (_in_bytes : list byte) : outcome str :=
  match utf8_decode _in_bytes with
  | Some s => Ok s
  | None => Raise InvalidEncoding
  end.

(** Lift a computation that does not touch the cursor. *)
Definition lift {A} (o : outcome A) : M A :=
  fun io =>
    match o with
    | Ok a => Ok (a, io)
    | Raise e => Raise e
    | OutOfFuel => OutOfFuel
    end.

(** ** ColumnData, ColumnType, TupleData *)

Record ColumnData : Type := mkColumnData {
  col_data_category : option str;
  col_data_length : option Z;
  col_data : option str
}.

Record ColumnType : Type := mkColumnType {
  part_of_pkey : Z;
  name : str;
  type_id : Z;
  atttypmod : Z
}.

Record TupleData : Type := mkTupleData {
  n_columns : Z;
  column_data : list ColumnData
}.

(** ** PgoutputMessage: the read helpers *)

Definition bytes_eqb (a b : list byte) : bool :=
  if list_eq_dec Byte.byte_eq_dec a b then true else false.

Definition read_int8 : M Z :=
  bs <- read INT8 ;; ret (convert_bytes_to_int bs).

Definition read_int16 : M Z :=
  bs <- read INT16 ;; ret (convert_bytes_to_int bs).

Definition read_int32 : M Z :=
  bs <- read INT32 ;; ret (convert_bytes_to_int bs).

Definition read_int64 : M Z :=
  bs <- read INT64 ;; ret (convert_bytes_to_int bs).

Definition read_utf8 (n : Z) : M str :=
  bs <- read n ;; lift (convert_bytes_to_utf8 bs).

Definition read_timestamp : M datetime :=
  us <- read_int64 ;; lift (convert_pg_ts us).

(** The [while] loop of [read_string]: one unit of fuel per evaluation of
    the loop condition. *)
Fixpoint read_string_loop (fuel : nat) (output : list byte) : M (list byte) :=
  match fuel with
  | O => out_of_fuel
  | S fuel' =>
    next_char <- read 1 ;;
    if bytes_eqb next_char [x00] then ret output
    else read_string_loop fuel' (output ++ next_char)
  end.

Definition read_string (fuel : nat) : M str :=
  output <- read_string_loop fuel [] ;;
  lift (convert_bytes_to_utf8 output).

(** The body of the [for] loop of [read_tuple_data]: an [if]/[elif] with
    no [else]. *)
Definition read_column (column_data : list ColumnData) : M (list ColumnData) :=
  col_data_category <- read_utf8 1 ;;
  if str_in col_data_category [lit "n"; lit "u"] then
    ret (column_data ++ [mkColumnData (Some col_data_category) None None])
  else if str_eqb col_data_category (lit "t") then
    col_data_length <- read_int32 ;;
    col_data <- read_utf8 col_data_length ;;
    ret (column_data ++
         [mkColumnData (Some col_data_category) (Some col_data_length)
                       (Some col_data)])
  else ret column_data.

Definition read_tuple_data : M TupleData :=
  n_columns <- read_int16 ;;
  column_data <- for_range n_columns read_column [] ;;
  ret (mkTupleData n_columns column_data).

(** [PgoutputMessage.__init__]: wrap the buffer, read [byte1], run the
    subclass's [decode_buffer]; the caller gets the object or the
    exception. *)
Definition __init__ {A} (decode_buffer : str -> M A) (buffer : list byte)
  : outcome A :=
  match (byte1 <- read_utf8 1 ;; decode_buffer byte1) (open buffer) with
  | Ok (self, _) => Ok self
  | Raise e => Raise e
  | OutOfFuel => OutOfFuel
  end.

(** ** The message classes *)

Module Begin.
Record t : Type := mk {
  byte1 : str;
  lsn : Z;
  commit_ts : datetime;
  tx_xid : Z
}.

Definition decode_buffer (byte1 : str) : M t :=
  if negb (str_eqb byte1 (lit "B")) then raise (TagMismatch (lit "B") byte1)
  else
    lsn <- read_int64 ;;
    commit_ts <- read_timestamp ;;
    tx_xid <- read_int64 ;;
    ret (mk byte1 lsn commit_ts tx_xid).

(** [Begin(buffer)] *)
Definition new (buffer : list byte) : outcome t :=
  __init__ decode_buffer buffer.
End Begin.

Module Commit.
Record t : Type := mk {
  byte1 : str;
  flags : Z;
  lsn_commit : Z;
  lsn : Z;
  commit_ts : datetime
}.

Definition decode_buffer (byte1 : str) : M t :=
  if negb (str_eqb byte1 (lit "C")) then raise (TagMismatch (lit "C") byte1)
  else
    flags <- read_int8 ;;
    lsn_commit <- read_int64 ;;
    lsn <- read_int64 ;;
    commit_ts <- read_timestamp ;;
    ret (mk byte1 flags lsn_commit lsn commit_ts).

Definition new (buffer : list byte) : outcome t :=
  __init__ decode_buffer buffer.
End Commit.

Module Relation.
Record t : Type := mk {
  byte1 : str;
  relation_id : Z;
  namespace : str;
  relation_name : str;
  replica_identity_setting : str;
  n_columns : Z;
  columns : list ColumnType
}.

Definition read_column_type (fuel : nat) (columns : list ColumnType)
  : M (list ColumnType) :=
  part_of_pkey <- read_int8 ;;
  col_name <- read_string fuel ;;
  data_type_id <- read_int32 ;;
  col_modifier <- read_int32 ;;
  ret (columns
       ++ [mkColumnType part_of_pkey col_name data_type_id col_modifier]).

Definition decode_buffer (fuel : nat) (byte1 : str) : M t :=
  if negb (str_eqb byte1 (lit "R")) then raise (TagMismatch (lit "R") byte1)
  else
    relation_id <- read_int32 ;;
    namespace <- read_string fuel ;;
    relation_name <- read_string fuel ;;
    replica_identity_setting <- read_utf8 1 ;;
    n_columns <- read_int16 ;;
    columns <- for_range n_columns (read_column_type fuel) [] ;;
    ret (mk byte1 relation_id namespace relation_name
            replica_identity_setting n_columns columns).

Definition new (fuel : nat) (buffer : list byte) : outcome t :=
  __init__ (decode_buffer fuel) buffer.
End Relation.

Module Insert.
Record t : Type := mk {
  byte1 : str;
  relation_id : Z;
  new_tuple_byte : str;
  new_tuple : TupleData
}.

Definition decode_buffer (byte1 : str) : M t :=
  if negb (str_eqb byte1 (lit "I")) then raise (TagMismatch (lit "I") byte1)
  else
    relation_id <- read_int32 ;;
    new_tuple_byte <- read_utf8 1 ;;
    new_tuple <- read_tuple_data ;;
    ret (mk byte1 relation_id new_tuple_byte new_tuple).

Definition new (buffer : list byte) : outcome t :=
  __init__ decode_buffer buffer.
End Insert.

Module Update.
Record t : Type := mk {
  byte1 : str;
  relation_id : Z;
  next_byte_identifier : str;
  optional_tuple_identifier : option str;
  old_tuple : option TupleData;
  new_tuple_byte : str;
  new_tuple : TupleData
}.

(** [self.buffer.tell()], for the error message. *)
Definition position : M nat := fun io => Ok (tell io, io).

Definition decode_buffer (byte1 : str) : M t :=
  if negb (str_eqb byte1 (lit "U")) then raise (TagMismatch (lit "U") byte1)
  else
    relation_id <- read_int32 ;;
    next_byte_identifier <- read_utf8 1 ;;
    branch <-
      (if str_eqb next_byte_identifier (lit "K")
          || str_eqb next_byte_identifier (lit "O")
       then
         old_tuple <- read_tuple_data ;;
         new_tuple_byte <- read_utf8 1 ;;
         ret (Some next_byte_identifier, Some old_tuple, new_tuple_byte)
       else ret (None, None, next_byte_identifier)) ;;
    let '(optional_tuple_identifier, old_tuple, new_tuple_byte) := branch in
    if negb (str_eqb new_tuple_byte (lit "N")) then
      pos <- position ;; raise (ExpectedNewTupleMarker pos new_tuple_byte)
    else
      new_tuple <- read_tuple_data ;;
      ret (mk byte1 relation_id next_byte_identifier
              optional_tuple_identifier old_tuple new_tuple_byte new_tuple).

Definition new (buffer : list byte) : outcome t :=
  __init__ decode_buffer buffer.
End Update.

Module Delete.
Record t : Type := mk {
  byte1 : str;
  relation_id : Z;
  message_type : str;
  old_tuple : TupleData
}.

Definition decode_buffer (byte1 : str) : M t :=
  if negb (str_eqb byte1 (lit "D")) then raise (TagMismatch (lit "D") byte1)
  else
    relation_id <- read_int32 ;;
    message_type <- read_utf8 1 ;;
    if negb (str_in message_type [lit "K"; lit "O"]) then
      raise (InvalidReplicaIdentityOrMessageTag message_type)
    else
      old_tuple <- read_tuple_data ;;
      ret (mk byte1 relation_id message_type old_tuple).

Definition new (buffer : list byte) : outcome t :=
  __init__ decode_buffer buffer.
End Delete.

Module Truncate.
Record t : Type := mk {
  byte1 : str;
  number_of_relations : Z;
  option_bits : Z;
  relation_ids : list Z
}.

Definition read_relation_id (relation_ids : list Z) : M (list Z) :=
  relation_id <- read_int32 ;; ret (relation_ids ++ [relation_id]).

Definition decode_buffer (byte1 : str) : M t :=
  if negb (str_eqb byte1 (lit "T")) then raise (TagMismatch (lit "T") byte1)
  else
    number_of_relations <- read_int32 ;;
    option_bits <- read_int8 ;;
    relation_ids <- for_range number_of_relations read_relation_id [] ;;
    ret (mk byte1 number_of_relations option_bits relation_ids).

Definition new (buffer : list byte) : outcome t :=
  __init__ decode_buffer buffer.
End Truncate.

(** ** The dispatcher *)

Inductive Message : Type :=
  | MBegin (m : Begin.t)
  | MCommit (m : Commit.t)
  | MRelation (m : Relation.t)
  | MInsert (m : Insert.t)
  | MUpdate (m : Update.t)
  | MDelete (m : Delete.t)
  | MTruncate (m : Truncate.t).

Definition outcome_map {A B} (f : A -> B) (o : outcome A) : outcome B :=
  match o with
  | Ok a => Ok (f a)
  | Raise e => Raise e
  | OutOfFuel => OutOfFuel
  end.

Local Open Scope byte_scope.

(** The lookup table from the leading byte to a message class. *)
Definition decoders (fuel : nat) : list (byte * (list byte -> outcome Message)) :=
  [ ("B", fun buffer => outcome_map MBegin (Begin.new buffer));
    ("C", fun buffer => outcome_map MCommit (Commit.new buffer));
    ("R", fun buffer => outcome_map MRelation (Relation.new fuel buffer));
    ("I", fun buffer => outcome_map MInsert (Insert.new buffer));
    ("U", fun buffer => outcome_map MUpdate (Update.new buffer));
    ("D", fun buffer => outcome_map MDelete (Delete.new buffer));
    ("T", fun buffer => outcome_map MTruncate (Truncate.new buffer)) ].

(** Modelled from the spec: the Dispatcher (the single caller-facing entry
    point), which decoders.py does not contain.  It reads the leading byte,
    looks it up in the table of the seven message classes and runs the
    class found on the buffer; a byte with no entry is reported as
    [UnsupportedMessageType], and a buffer with no leading byte as
    [UnexpectedEndOfBuffer].  The classes of decoders.py read and check
    [byte1] themselves, so they are handed the whole buffer. *)
Definition dispatch (fuel : nat) (buffer : list byte) : outcome Message :=
  match buffer with
  | [] => Raise UnexpectedEndOfBuffer
  | tag :: _ =>
    match find (fun entry => Byte.eqb (fst entry) tag) (decoders fuel) with
    | Some (_, decode) => decode buffer
    | None => Raise UnsupportedMessageType
    end
  end.

(** ** Vocabulary of the statements *)

(** The cursor moved [k] bytes forward. *)
Definition seek (io : BytesIO) (k : nat) : BytesIO :=
  mkBytesIO (getvalue io) (tell io + k).

(** The cursor moved to the end of what was left. *)
Definition exhausted (io : BytesIO) : BytesIO :=
  seek io (length (remaining io)).

(** The read primitives and the number of bytes each one asks for. *)
Inductive primitive : Type :=
  | Read_int8
  | Read_int16
  | Read_int32
  | Read_int64
  | Read_utf8 (n : Z)
  | Read_timestamp.

Definition required (p : primitive) : Z :=
  match p with
  | Read_int8 => INT8
  | Read_int16 => INT16
  | Read_int32 => INT32
  | Read_int64 => INT64
  | Read_utf8 n => n
  | Read_timestamp => INT64
  end.

(** One column submessage on the wire and the [ColumnData] it stands for:
    a lone ['n'] or ['u'], or ['t'] with a four-byte length and as many
    bytes of UTF-8 text. *)
Inductive column_wire : list byte -> ColumnData -> Prop :=
  | wire_null :
      column_wire ["n"] (mkColumnData (Some (lit "n")) None None)
  | wire_unchanged :
      column_wire ["u"] (mkColumnData (Some (lit "u")) None None)
  | wire_text (len4 payload : list byte) (s : str) :
      length len4 = 4%nat ->
      convert_bytes_to_int len4 = Z.of_nat (length payload) ->
      utf8_decode payload = Some s ->
      column_wire ("t" :: len4 ++ payload)
        (mkColumnData (Some (lit "t")) (Some (Z.of_nat (length payload)))
                      (Some s)).

Local Close Scope byte_scope.

(** What a decoded column must look like: ['n'] and ['u'] carry neither
    length nor value, ['t'] carries a value as long, in bytes, as the
    length it declares. *)
Definition column_ok (c : ColumnData) : bool :=
  match c with
  | mkColumnData (Some cat) None None => str_in cat [lit "n"; lit "u"]
  | mkColumnData (Some cat) (Some len) (Some s) =>
      str_eqb cat (lit "t") && (Z.of_nat (utf8_len s) =? len)
  | _ => false
  end.

Definition tuple_ok (t : TupleData) : bool :=
  (Z.of_nat (length (column_data t)) =? n_columns t)
  && forallb column_ok (column_data t).



(** One column description of a Relation message on the wire and the
    [ColumnType] it stands for: a flag byte, a zero-terminated name, the
    four bytes of the type id and the four bytes of the type modifier. *)
Inductive column_type_wire : list byte -> ColumnType -> Prop :=
  | wire_column_type (flag : byte) (nm type4 mod4 : list byte) (s : str) :
      ~ In x00 nm ->
      utf8_decode nm = Some s ->
      length type4 = 4%nat ->
      length mod4 = 4%nat ->
      column_type_wire (flag :: nm ++ x00 :: type4 ++ mod4)
        (mkColumnType (convert_bytes_to_int [flag]) s
                      (convert_bytes_to_int type4)
                      (convert_bytes_to_int mod4)).

(** A decoder that keeps the buffer, never moves the cursor backwards and
    never moves it beyond the end of the buffer. *)
Definition forward_only {A} (m : M A) : Prop :=
  forall io a io',
    m io = Ok (a, io') ->
    getvalue io' = getvalue io
    /\ (tell io <= tell io')%nat
    /\ (tell io' <= Nat.max (tell io) (length (getvalue io)))%nat.

(** A decoder whose only exception is the encoding error and which always
    comes to an end. *)
Definition fails_only_on_encoding {A} (m : M A) : Prop :=
  forall io,
    m io <> OutOfFuel
    /\ forall e, m io = Raise e -> e = InvalidEncoding.

(** The range of a signed integer of [w] bytes. *)
Definition signed_range (w : Z) (z : Z) : Prop :=
  - 2 ^ (8 * w - 1) <= z < 2 ^ (8 * w - 1).

(** * Properties *)

(** ** The cursor *)

Section Cursor.

Lemma remaining_length io :
  length (remaining io) = (length (getvalue io) - tell io)%nat.
Proof. unfold remaining. apply length_skipn. Qed.

Lemma remaining_seek io k : remaining (seek io k) = skipn k (remaining io).
Proof.
  unfold remaining, seek; simpl.
  rewrite skipn_skipn. f_equal. lia.
Qed.

Lemma remaining_seek_app io bs rest :
  remaining io = bs ++ rest -> remaining (seek io (length bs)) = rest.
Proof.
  intros H. rewrite remaining_seek, H, skipn_app, skipn_all.
  now rewrite Nat.sub_diag.
Qed.

Lemma remaining_exhausted io : remaining (exhausted io) = [].
Proof. unfold exhausted. rewrite remaining_seek. apply skipn_all. Qed.

Lemma seek_seek io j k : seek (seek io j) k = seek io (j + k).
Proof. unfold seek; simpl. f_equal. lia. Qed.

Lemma seek_0 io : seek io 0 = io.
Proof. destruct io; unfold seek; simpl. f_equal. lia. Qed.

(** A read of [n >= 0] bytes returns the first [n] bytes left, or all of
    them when fewer are left, and moves the cursor past them. *)
Lemma read_nonneg n io :
  0 <= n ->
  read n io = Ok (firstn (Z.to_nat n) (remaining io),
                  seek io (Nat.min (Z.to_nat n) (length (remaining io)))).
Proof.
  intros Hn. unfold read, seek.
  pose proof (remaining_length io) as HL.
  destruct (n <? 0) eqn:E1; [lia|]. simpl orb.
  destruct (_ <? n) eqn:E2.
  - apply Z.ltb_lt in E2.
    replace (Z.to_nat (Z.max _ 0)) with (length (remaining io)) by lia.
    rewrite firstn_all, firstn_all2 by lia.
    do 3 f_equal. lia.
  - apply Z.ltb_ge in E2. do 3 f_equal. lia.
Qed.

(** [read(-1)] and the like return everything that is left. *)
Lemma read_negative n io :
  n < 0 -> read n io = Ok (remaining io, exhausted io).
Proof.
  intros Hn. unfold read, exhausted, seek.
  pose proof (remaining_length io) as HL.
  destruct (n <? 0) eqn:E1; [|lia]. simpl orb. cbv beta iota zeta.
  replace (Z.to_nat (Z.max _ 0)) with (length (remaining io)) by lia.
  now rewrite firstn_all.
Qed.

(** A read that asks for more than is left returns what is left. *)
Lemma read_short n io :
  Z.of_nat (length (remaining io)) < n ->
  read n io = Ok (remaining io, exhausted io).
Proof.
  intros Hn. rewrite read_nonneg by lia.
  rewrite firstn_all2 by lia. unfold exhausted. do 3 f_equal. lia.
Qed.

Lemma read_exact io bs rest :
  remaining io = bs ++ rest ->
  read (Z.of_nat (length bs)) io = Ok (bs, seek io (length bs)).
Proof.
  intros H. rewrite read_nonneg by lia.
  rewrite Nat2Z.id, H, firstn_app, firstn_all, Nat.sub_diag, length_app.
  simpl. rewrite app_nil_r. do 3 f_equal. lia.
Qed.

End Cursor.

(** ** Bytes, integers and text *)

Section Bytes.

Lemma byte_to_Z_range b : 0 <= byte_to_Z b < 256.
Proof.
  unfold byte_to_Z. pose proof (Byte.to_N_bounded b). lia.
Qed.

Lemma byte_to_Z_inj a b : byte_to_Z a = byte_to_Z b -> a = b.
Proof.
  unfold byte_to_Z. intros H. apply N2Z.inj in H.
  pose proof (Byte.of_to_N a) as Ha. rewrite H, Byte.of_to_N in Ha.
  congruence.
Qed.

Lemma str_eqb_eq s t : str_eqb s t = true <-> s = t.
Proof.
  revert t; induction s as [|c s IH]; intros [|d t]; simpl;
    try (split; [discriminate|discriminate]); [tauto|].
  rewrite andb_true_iff, Z.eqb_eq, IH. split.
  - intros [-> ->]; reflexivity.
  - intros H; inversion H; auto.
Qed.

(** A single byte decodes exactly when it is a 7-bit byte, to the
    one-character string of that code point. *)
Lemma utf8_decode_single b :
  utf8_decode [b] = if byte_to_Z b <? 128 then Some [byte_to_Z b] else None.
Proof. simpl. destruct (_ <? 128); reflexivity. Qed.

(** Strict decoding keeps the byte count: the decoded text re-encodes
    to as many bytes as were decoded. *)
Lemma utf8_decode_length bs :
  forall s, utf8_decode bs = Some s -> utf8_len s = length bs.
Proof.
  enough (G : forall m bs, (length bs <= m)%nat ->
              forall s, utf8_decode bs = Some s -> utf8_len s = length bs)
    by (apply (G (length bs)); lia).
  clear bs. induction m as [|m IH]; intros bs Hle s Hs.
  { destruct bs; [|simpl in Hle; lia]. simpl in Hs. now inversion Hs. }
  destruct bs as [|b0 r0]; [simpl in Hs; now inversion Hs|].
  simpl in Hle. cbn [utf8_decode] in Hs.
  pose proof (byte_to_Z_range b0) as R0.
  destruct (byte_to_Z b0 <? 128) eqn:E0.
  { destruct (utf8_decode r0) as [s0|] eqn:D; [|discriminate].
    inversion Hs; subst s. cbn [utf8_len fold_right length].
    change (fold_right _ _ s0) with (utf8_len s0).
    rewrite (IH r0 ltac:(lia) s0 D). unfold utf8_width. rewrite E0. lia. }
  destruct r0 as [|b1 r1]; [discriminate|].
  pose proof (byte_to_Z_range b1) as R1. simpl in Hle.
  unfold second_ok in Hs; unfold in_range, is_cont in Hs.
  destruct (_ && _) eqn:E1 in Hs.
  { destruct (_ && _) eqn:E2 in Hs; [|discriminate].
    destruct (utf8_decode r1) as [s0|] eqn:D; [|discriminate].
    inversion Hs; subst s. cbn [utf8_len fold_right length].
    change (fold_right _ _ s0) with (utf8_len s0).
    rewrite (IH r1 ltac:(lia) s0 D). unfold utf8_width.
    repeat match goal with
           | |- context [?a <? ?b] => destruct (Z.ltb_spec a b)
           end; lia. }
  destruct r1 as [|b2 r2]; [discriminate|].
  pose proof (byte_to_Z_range b2) as R2. simpl in Hle.
  destruct (_ && _) eqn:E2 in Hs.
  { destruct (_ && _) eqn:E3 in Hs; [|discriminate].
    destruct (utf8_decode r2) as [s0|] eqn:D; [|discriminate].
    inversion Hs; subst s. cbn [utf8_len fold_right length].
    change (fold_right _ _ s0) with (utf8_len s0).
    rewrite (IH r2 ltac:(lia) s0 D). unfold utf8_width.
    apply andb_true_iff in E3 as [E3 E4].
    repeat match type of E3 with
           | context [?a =? ?b] => destruct (Z.eqb_spec a b); cbv iota in E3
           end;
    repeat match goal with
           | |- context [?a <? ?b] => destruct (Z.ltb_spec a b)
           end; lia. }
  destruct r2 as [|b3 r3]; [discriminate|].
  pose proof (byte_to_Z_range b3) as R3. simpl in Hle.
  destruct (_ && _) eqn:E3 in Hs; [|discriminate].
  destruct (_ && _) eqn:E4 in Hs; [|discriminate].
  destruct (utf8_decode r3) as [s0|] eqn:D; [|discriminate].
  inversion Hs; subst s. cbn [utf8_len fold_right length].
  change (fold_right _ _ s0) with (utf8_len s0).
  rewrite (IH r3 ltac:(lia) s0 D). unfold utf8_width.
  apply andb_true_iff in E4 as [E4 E5].
  apply andb_true_iff in E4 as [E4 E6].
  repeat match type of E4 with
         | context [?a =? ?b] => destruct (Z.eqb_spec a b); cbv iota in E4
         end;
  repeat match goal with
         | |- context [?a <? ?b] => destruct (Z.ltb_spec a b)
         end; lia.
Qed.

End Bytes.

(** ** The calendar constants and a few conversions, evaluated *)

(** [date(2000, 1, 1).toordinal() = 730120] and
    [date.max.toordinal() = 3652059]. *)
Example pg_epoch_ordinal :
  micros (datetime_jan1 2000) = 730119 * micros_per_day.
Proof. reflexivity. Qed.

Example datetime_max_ordinal :
  datetime_max_micros = 3652059 * micros_per_day - 1.
Proof. reflexivity. Qed.

Example from_bytes_samples :
  convert_bytes_to_int [] = 0
  /\ convert_bytes_to_int [xff] = -1
  /\ convert_bytes_to_int [x80; x00] = -32768
  /\ convert_bytes_to_int [x00; x00; x02; x2b] = 555.
Proof. repeat split. Qed.

Example decode_samples :
  utf8_decode [xe2; x82; xac] = Some [8364]
  /\ utf8_decode [xf0; x9f; x98; x80] = Some [128512]
  /\ utf8_decode [xc0; x80] = None
  /\ utf8_decode [xed; xa0; x80] = None
  /\ utf8_decode [xe2; x82] = None.
Proof. repeat split. Qed.

(** ** The read helpers *)

Section Primitives.

Lemma bind_ok {A B} (m : M A) (k : A -> M B) io a io' :
  m io = Ok (a, io') -> bind m k io = k a io'.
Proof. intros H. unfold bind. now rewrite H. Qed.

Lemma bind_raise {A B} (m : M A) (k : A -> M B) io e :
  m io = Raise e -> bind m k io = Raise e.
Proof. intros H. unfold bind. now rewrite H. Qed.

Lemma bind_out_of_fuel {A B} (m : M A) (k : A -> M B) io :
  m io = OutOfFuel -> bind m k io = OutOfFuel.
Proof. intros H. unfold bind. now rewrite H. Qed.

(** An integer read never fails: it converts the bytes it got. *)
Lemma read_int_nonneg w io :
  0 <= w ->
  (bs <- read w ;; ret (convert_bytes_to_int bs)) io
  = Ok (convert_bytes_to_int (firstn (Z.to_nat w) (remaining io)),
        seek io (Nat.min (Z.to_nat w) (length (remaining io)))).
Proof.
  intros Hw. erewrite bind_ok by (apply read_nonneg; exact Hw). reflexivity.
Qed.

Lemma read_int_short w io :
  Z.of_nat (length (remaining io)) < w ->
  (bs <- read w ;; ret (convert_bytes_to_int bs)) io
  = Ok (convert_bytes_to_int (remaining io), exhausted io).
Proof.
  intros Hw. erewrite bind_ok by (apply read_short; exact Hw). reflexivity.
Qed.

Lemma read_utf8_short n io :
  Z.of_nat (length (remaining io)) < n ->
  read_utf8 n io = lift (convert_bytes_to_utf8 (remaining io)) (exhausted io).
Proof.
  intros Hn. unfold read_utf8.
  erewrite bind_ok by (apply read_short; exact Hn). reflexivity.
Qed.

(** Reading one character: nothing at the end of the buffer, the
    character of a 7-bit byte, an encoding error on any other byte. *)
Lemma read_utf8_1_eof io :
  remaining io = [] -> read_utf8 1 io = Ok ([], seek io 0).
Proof.
  intros H. unfold read_utf8.
  erewrite bind_ok by (apply read_nonneg; lia). rewrite H. reflexivity.
Qed.

Lemma read_utf8_1_cons io b rest :
  remaining io = b :: rest ->
  read_utf8 1 io
  = if byte_to_Z b <? 128 then Ok ([byte_to_Z b], seek io 1)
    else Raise InvalidEncoding.
Proof.
  intros H. unfold read_utf8.
  erewrite bind_ok by (apply read_nonneg; lia). rewrite H.
  change (firstn (Z.to_nat 1) (b :: rest)) with [b].
  unfold convert_bytes_to_utf8. rewrite utf8_decode_single.
  destruct (byte_to_Z b <? 128); reflexivity.
Qed.

End Primitives.

(** ** read_string *)

Section ReadString.

(** With no zero byte left, the loop condition never becomes false,
    whatever the fuel: at the end of the buffer [read(1)] keeps
    returning the empty byte string, which differs from [b"\x00"]. *)
Lemma read_string_loop_unterminated fuel :
  forall output io,
    ~ In x00 (remaining io) ->
    read_string_loop fuel output io = OutOfFuel.
Proof.
  induction fuel as [|fuel IH]; intros output io Hz; [reflexivity|].
  cbn [read_string_loop].
  erewrite bind_ok by (apply read_nonneg; lia).
  change (Z.to_nat 1) with 1%nat.
  assert (Hz' : ~ In x00 (remaining
                 (seek io (Nat.min 1 (length (remaining io)))))).
  { rewrite remaining_seek. intros Hin. apply Hz.
    rewrite <- (firstn_skipn (Nat.min 1 (length (remaining io)))
                             (remaining io)).
    apply in_or_app. now right. }
  destruct (remaining io) as [|b rest] eqn:R.
  - simpl firstn. change (bytes_eqb [] [x00]) with false. cbv iota.
    apply IH. exact Hz'.
  - change (firstn 1 (b :: rest)) with [b]. unfold bytes_eqb.
    destruct (list_eq_dec Byte.byte_eq_dec [b] [x00]) as [E|E].
    + exfalso. apply Hz. left. congruence.
    + apply IH. exact Hz'.
Qed.

(** Up to a zero byte the loop collects the bytes in front of it and
    stops behind it; [S (length pre)] evaluations of the condition are
    enough. *)
Lemma read_string_loop_terminated pre :
  forall output io rest fuel,
    remaining io = pre ++ x00 :: rest ->
    ~ In x00 pre ->
    (length pre < fuel)%nat ->
    read_string_loop fuel output io
    = Ok (output ++ pre, seek io (S (length pre))).
Proof.
  induction pre as [|b pre IH]; intros output io rest fuel R Hz Hf;
    (destruct fuel as [|fuel]; [simpl in Hf; lia|]);
    cbn [read_string_loop];
    (erewrite bind_ok by (apply read_nonneg; lia));
    rewrite R; change (Z.to_nat 1) with 1%nat;
    [change (firstn 1 ([] ++ x00 :: rest)) with [x00]
    |change (firstn 1 ((b :: pre) ++ x00 :: rest)) with [b]].
  - change (bytes_eqb [x00] [x00]) with true. cbv iota.
    rewrite app_nil_r. reflexivity.
  - unfold bytes_eqb. destruct (list_eq_dec Byte.byte_eq_dec [b] [x00]) as [E|E].
    + exfalso. apply Hz. left. congruence.
    + simpl length. change (Nat.min 1 (S _)) with 1%nat.
      rewrite (IH (output ++ [b]) (seek io 1) rest fuel).
      * rewrite <- app_assoc, seek_seek. reflexivity.
      * rewrite remaining_seek, R. reflexivity.
      * intros Hin. apply Hz. now right.
      * simpl in Hf. lia.
Qed.

Lemma read_string_terminated io pre rest fuel :
  remaining io = pre ++ x00 :: rest ->
  ~ In x00 pre ->
  (length pre < fuel)%nat ->
  read_string fuel io
  = lift (convert_bytes_to_utf8 pre) (seek io (S (length pre))).
Proof.
  intros R Hz Hf. unfold read_string.
  erewrite bind_ok by (eapply read_string_loop_terminated; eauto).
  reflexivity.
Qed.

End ReadString.

(** ** Claims about the read helpers *)

(** C1, as stated, fails: [read_int32] on a buffer holding the single byte
    0x01 has one byte where four are required, and returns 1. *)
Lemma read_int32_truncated_succeeds :
  Z.of_nat (length (remaining (open [x01]))) < required Read_int32
  /\ read_int32 (open [x01]) = Ok (1, mkBytesIO [x01] 1)
  /\ read_int32 (open [x01]) <> Raise UnexpectedEndOfBuffer.
Proof.
  split; [reflexivity|]. split; [reflexivity|]. discriminate.
Qed.

(** C1, amended: when fewer bytes are left than a read primitive asks for,
    the primitive works on the bytes that are left and moves the cursor to
    the end of the buffer.  The integer readers return the big-endian
    signed value of those bytes (0 when none is left), [read_utf8] returns
    their UTF-8 decoding or fails with the encoding error, and
    [read_timestamp] adds that integer, as microseconds, to 2000-01-01. *)
Theorem short_read_returns_what_is_left (p : primitive) (io : BytesIO) :
  Z.of_nat (length (remaining io)) < required p ->
  let left := remaining io in
  match p with
  | Read_int8 => read_int8 io = Ok (convert_bytes_to_int left, exhausted io)
  | Read_int16 => read_int16 io = Ok (convert_bytes_to_int left, exhausted io)
  | Read_int32 => read_int32 io = Ok (convert_bytes_to_int left, exhausted io)
  | Read_int64 => read_int64 io = Ok (convert_bytes_to_int left, exhausted io)
  | Read_utf8 n =>
      read_utf8 n io = lift (convert_bytes_to_utf8 left) (exhausted io)
  | Read_timestamp =>
      read_timestamp io
      = lift (convert_pg_ts (convert_bytes_to_int left)) (exhausted io)
  end.
Proof.
  intros H left. subst left.
  destruct p; cbn [required] in H;
    try (apply read_int_short; exact H).
  - apply read_utf8_short; exact H.
  - unfold read_timestamp.
    erewrite bind_ok by (apply read_int_short; exact H). reflexivity.
Qed.

Lemma short_read_returns_what_is_left_witness :
  Z.of_nat (length (remaining (open [x01; x02]))) < required Read_int64
  /\ read_int64 (open [x01; x02])
     = Ok (convert_bytes_to_int [x01; x02], exhausted (open [x01; x02])).
Proof.
  split; [reflexivity|].
  apply (short_read_returns_what_is_left Read_int64 (open [x01; x02])).
  reflexivity.
Defined.

(** C2: on a buffer with no zero byte at or after the cursor [read_string]
    does not return and does not fail, however many times its loop
    condition is evaluated; the claim asks for a failure with
    [UnexpectedEndOfBuffer]. *)
Theorem read_string_unterminated_never_returns (io : BytesIO) :
  ~ In x00 (remaining io) ->
  forall fuel, read_string fuel io = OutOfFuel.
Proof.
  intros Hz fuel. unfold read_string.
  apply bind_out_of_fuel. apply read_string_loop_unterminated. exact Hz.
Qed.

Lemma read_string_unterminated_never_returns_witness :
  ~ In x00 (remaining (open [x61; x62]))
  /\ forall fuel, read_string fuel (open [x61; x62]) = OutOfFuel.
Proof.
  assert (H : ~ In x00 (remaining (open [x61; x62]))).
  { simpl. intros [H|[H|[]]]; discriminate. }
  split; [exact H|].
  exact (read_string_unterminated_never_returns (open [x61; x62]) H).
Defined.

(** ** Fixed-width reads in terms of the bytes that are left *)

Section FixedWidth.

Lemma remaining_seek_min io k :
  remaining (seek io (Nat.min k (length (remaining io))))
  = skipn k (remaining io).
Proof.
  rewrite remaining_seek.
  destruct (Nat.le_ge_cases k (length (remaining io))) as [H|H].
  - now rewrite Nat.min_l.
  - rewrite Nat.min_r by exact H. now rewrite !skipn_all2 by lia.
Qed.

Lemma read_int8_eq io :
  read_int8 io = Ok (convert_bytes_to_int (firstn 1 (remaining io)),
                     seek io (Nat.min 1 (length (remaining io)))).
Proof. apply (read_int_nonneg 1). lia. Qed.

Lemma read_int16_eq io :
  read_int16 io = Ok (convert_bytes_to_int (firstn 2 (remaining io)),
                      seek io (Nat.min 2 (length (remaining io)))).
Proof. apply (read_int_nonneg 2). lia. Qed.

Lemma read_int32_eq io :
  read_int32 io = Ok (convert_bytes_to_int (firstn 4 (remaining io)),
                      seek io (Nat.min 4 (length (remaining io)))).
Proof. apply (read_int_nonneg 4). lia. Qed.

Lemma read_int64_eq io :
  read_int64 io = Ok (convert_bytes_to_int (firstn 8 (remaining io)),
                      seek io (Nat.min 8 (length (remaining io)))).
Proof. apply (read_int_nonneg 8). lia. Qed.

(** [byte1] of a buffer that starts with the 7-bit byte [b]. *)
Lemma read_byte1 b rest :
  byte_to_Z b < 128 ->
  read_utf8 1 (open (b :: rest))
  = Ok ([byte_to_Z b], mkBytesIO (b :: rest) 1).
Proof.
  intros Hb. rewrite (read_utf8_1_cons _ b rest) by reflexivity.
  destruct (Z.ltb_spec (byte_to_Z b) 128); [reflexivity|lia].
Qed.

Lemma remaining_at_1 b rest : remaining (mkBytesIO (b :: rest) 1) = rest.
Proof. reflexivity. Qed.

End FixedWidth.

(** ** read_tuple_data *)

Section TupleDataReader.

Lemma for_range_negative {A} n (body : A -> M A) acc io :
  n <= 0 -> for_range n body acc io = Ok (acc, io).
Proof.
  intros Hn. unfold for_range.
  replace (Z.to_nat n) with 0%nat by lia. reflexivity.
Qed.

Lemma read_tuple_data_eq io :
  read_tuple_data io
  = (let n := convert_bytes_to_int (firstn 2 (remaining io)) in
     column_data <- for_range n read_column [] ;;
     ret (mkTupleData n column_data))
      (seek io (Nat.min 2 (length (remaining io)))).
Proof.
  unfold read_tuple_data. erewrite bind_ok by apply read_int16_eq.
  reflexivity.
Qed.

(** A 7-bit tag byte other than ['n'], ['u'] and ['t'] takes neither
    branch of the [if]/[elif]: the byte is consumed and nothing is
    appended. *)
Lemma read_column_unknown io b rest acc :
  remaining io = b :: rest ->
  byte_to_Z b < 128 ->
  b <> "n"%byte -> b <> "u"%byte -> b <> "t"%byte ->
  read_column acc io = Ok (acc, seek io 1).
Proof.
  intros R Hb Hn Hu Ht. unfold read_column.
  erewrite bind_ok
    by (rewrite (read_utf8_1_cons _ b rest R);
        destruct (Z.ltb_spec (byte_to_Z b) 128); [reflexivity|lia]).
  assert (byte_to_Z b <> 110)
    by (intros E; apply Hn; apply byte_to_Z_inj; exact E).
  assert (byte_to_Z b <> 117)
    by (intros E; apply Hu; apply byte_to_Z_inj; exact E).
  assert (byte_to_Z b <> 116)
    by (intros E; apply Ht; apply byte_to_Z_inj; exact E).
  unfold str_in, lit; simpl.
  destruct (Z.eqb_spec (byte_to_Z b) 110); [lia|].
  destruct (Z.eqb_spec (byte_to_Z b) 117); [lia|].
  destruct (Z.eqb_spec (byte_to_Z b) 116); [lia|].
  reflexivity.
Qed.

(** A well-formed column submessage is decoded to the column it stands
    for, and the cursor moves past it. *)
Lemma read_column_wire io seg col rest acc :
  column_wire seg col ->
  remaining io = seg ++ rest ->
  read_column acc io = Ok (acc ++ [col], seek io (length seg)).
Proof.
  intros W R. unfold read_column.
  destruct W as [| |len4 payload s Hlen Hint Hdec].
  - erewrite bind_ok by (rewrite (read_utf8_1_cons _ _ rest R); reflexivity).
    reflexivity.
  - erewrite bind_ok by (rewrite (read_utf8_1_cons _ _ rest R); reflexivity).
    reflexivity.
  - simpl in R.
    erewrite bind_ok
      by (rewrite (read_utf8_1_cons _ _ _ R); reflexivity).
    change (str_in _ _) with false. change (str_eqb _ _) with true.
    cbv iota.
    assert (R1 : remaining (seek io 1) = len4 ++ payload ++ rest).
    { rewrite remaining_seek, R. simpl. now rewrite <- app_assoc. }
    erewrite bind_ok.
    2:{ unfold read_int32. erewrite bind_ok.
        2:{ change INT32 with (Z.of_nat 4). rewrite <- Hlen.
            apply (read_exact _ len4 (payload ++ rest) R1). }
        reflexivity. }
    rewrite Hint.
    assert (R2 : remaining (seek (seek io 1) (length len4)) = payload ++ rest)
      by (apply remaining_seek_app; exact R1).
    erewrite bind_ok.
    2:{ unfold read_utf8. erewrite bind_ok by (apply (read_exact _ _ _ R2)).
        unfold convert_bytes_to_utf8. rewrite Hdec. reflexivity. }
    unfold ret. rewrite !seek_seek. simpl length. rewrite length_app.
    repeat f_equal; lia.
Qed.

(** The loop over a run of well-formed column submessages appends their
    columns in the order of the wire. *)
Lemma repeat_read_column_wire segs cols :
  Forall2 column_wire segs cols ->
  forall io rest acc,
    remaining io = concat segs ++ rest ->
    repeat_M (length segs) read_column acc io
    = Ok (acc ++ cols, seek io (length (concat segs))).
Proof.
  induction 1 as [|seg col segs cols W F IH]; intros io rest acc R.
  - simpl. unfold ret. now rewrite app_nil_r, seek_0.
  - simpl in R. rewrite <- app_assoc in R.
    cbn [length repeat_M].
    erewrite bind_ok by (apply (read_column_wire _ _ _ _ _ W R)).
    rewrite (IH _ rest).
    + rewrite <- app_assoc, seek_seek. simpl concat.
      now rewrite length_app.
    + apply remaining_seek_app. exact R.
Qed.

Lemma column_wire_ok seg col : column_wire seg col -> column_ok col = true.
Proof.
  intros [| |len4 payload s Hlen Hint Hdec]; try reflexivity.
  cbn [column_ok]. rewrite (utf8_decode_length _ _ Hdec).
  change (str_eqb _ _) with true. simpl. apply Z.eqb_refl.
Qed.

End TupleDataReader.

(** ** Claims about read_tuple_data *)

Local Open Scope byte_scope.

(** C3: a column whose tag is a 7-bit byte other than ['n'], ['u'] and ['t']
    is passed over in silence.  A tuple announcing one column and holding
    such a tag decodes successfully to a tuple with [n_columns = 1] and no
    column at all; the claim asks for [InvalidColumnCategory]. *)
Theorem read_tuple_data_skips_unknown_tag
  (io : BytesIO) (b : byte) (rest : list byte) :
  remaining io = x00 :: x01 :: b :: rest ->
  byte_to_Z b < 128 ->
  b <> "n" -> b <> "u" -> b <> "t" ->
  read_tuple_data io = Ok (mkTupleData 1 [], seek io 3).
Proof.
  intros R Hb Hn Hu Ht. rewrite read_tuple_data_eq, R.
  change (convert_bytes_to_int _) with 1%Z.
  change (Nat.min 2 _) with 2%nat. cbv zeta.
  assert (R2 : remaining (seek io 2) = b :: rest)
    by (rewrite remaining_seek, R; reflexivity).
  erewrite bind_ok.
  2:{ unfold for_range. change (Z.to_nat 1) with 1%nat. cbn [repeat_M].
      erewrite bind_ok by (apply (read_column_unknown _ b rest); assumption).
      reflexivity. }
  unfold ret. now rewrite seek_seek.
Qed.

Lemma read_tuple_data_skips_unknown_tag_witness :
  read_tuple_data (open [x00; x01; "x"])
  = Ok (mkTupleData 1 [], seek (open [x00; x01; "x"]) 3).
Proof.
  apply (read_tuple_data_skips_unknown_tag (open [x00; x01; "x"]) "x" []);
    [reflexivity | reflexivity | discriminate | discriminate | discriminate].
Defined.

(** C4, as stated, fails: a tuple with one ['t'] column that declares five
    bytes and holds two decodes successfully, to a value of two bytes. *)
Lemma read_tuple_data_truncated_text_value :
  let t := mkTupleData 1
             [mkColumnData (Some (lit "t")) (Some 5%Z) (Some (lit "ab"))] in
  read_tuple_data (open [x00; x01; "t"; x00; x00; x00; x05; "a"; "b"])
  = Ok (t, mkBytesIO [x00; x01; "t"; x00; x00; x00; x05; "a"; "b"] 9)
  /\ tuple_ok t = false.
Proof. split; reflexivity. Qed.

(** C4, amended: for a buffer that holds a two-byte count [k >= 0] followed
    by [k] complete column submessages, each a lone ['n'] or ['u'] or a
    ['t'] with a four-byte length [L >= 0] and exactly [L] bytes of valid
    UTF-8, [read_tuple_data] succeeds; the tuple has [n_columns = k] and
    exactly [k] columns, the columns of the submessages in the order of the
    wire; an ['n'] or ['u'] column has neither length nor value, and the
    value of a ['t'] column is as long, in bytes, as the length declared. *)
Theorem read_tuple_data_well_formed
  (io : BytesIO) (count2 : list byte) (segs : list (list byte))
  (cols : list ColumnData) (rest : list byte) :
  length count2 = 2%nat ->
  convert_bytes_to_int count2 = Z.of_nat (length segs) ->
  Forall2 column_wire segs cols ->
  remaining io = count2 ++ concat segs ++ rest ->
  let t := mkTupleData (Z.of_nat (length segs)) cols in
  read_tuple_data io = Ok (t, seek io (2 + length (concat segs)))
  /\ length (column_data t) = length segs
  /\ tuple_ok t = true.
Proof.
  intros Hc Hk W R t. subst t.
  assert (Hl : length cols = length segs)
    by (symmetry; eapply Forall2_length; exact W).
  split; [|split; [exact Hl|]].
  - rewrite read_tuple_data_eq, R.
    rewrite firstn_app, Hc, Nat.sub_diag, firstn_all2 by lia.
    simpl firstn. rewrite app_nil_r, Hk. cbv zeta.
    rewrite length_app, Hc.
    replace (Nat.min 2 _) with (length count2) by lia.
    unfold for_range. rewrite Nat2Z.id.
    erewrite bind_ok.
    2:{ apply (repeat_read_column_wire segs cols W _ rest).
        apply remaining_seek_app. exact R. }
    unfold ret. rewrite seek_seek, Hc. reflexivity.
  - unfold tuple_ok. cbn [column_data n_columns]. rewrite Hl, Z.eqb_refl.
    simpl. clear Hk R Hl.
    induction W as [|seg col segs cols W1 W IH]; [reflexivity|].
    simpl. now rewrite (column_wire_ok _ _ W1), IH.
Qed.

Lemma read_tuple_data_well_formed_witness :
  let t := mkTupleData 2
             [mkColumnData (Some (lit "n")) None None;
              mkColumnData (Some (lit "t")) (Some 1%Z) (Some (lit "a"))] in
  read_tuple_data (open [x00; x02; "n"; "t"; x00; x00; x00; x01; "a"; "N"])
  = Ok (t, seek (open [x00; x02; "n"; "t"; x00; x00; x00; x01; "a"; "N"]) 9)
  /\ length (column_data t) = 2%nat
  /\ tuple_ok t = true.
Proof.
  apply (read_tuple_data_well_formed
           (open [x00; x02; "n"; "t"; x00; x00; x00; x01; "a"; "N"])
           [x00; x02] [["n"]; "t" :: [x00; x00; x00; x01] ++ ["a"]]
           _ ["N"]).
  - reflexivity.
  - reflexivity.
  - constructor; [constructor|].
    constructor; [|constructor].
    apply (wire_text [x00; x00; x00; x01] ["a"] (lit "a")); reflexivity.
  - reflexivity.
Defined.

(** C10: a negative count runs the loop zero times.  [read_tuple_data]
    returns the negative [n_columns] with an empty column list and leaves
    the cursor right behind the count; [Truncate] returns the negative
    [number_of_relations] with an empty list of relation ids. *)
Theorem negative_count_gives_empty_list (count : Z) :
  count < 0 ->
  (forall io,
      convert_bytes_to_int (firstn 2 (remaining io)) = count ->
      read_tuple_data io
      = Ok (mkTupleData count [],
            seek io (Nat.min 2 (length (remaining io)))))
  /\ (forall rest,
         convert_bytes_to_int (firstn 4 rest) = count ->
         Truncate.new ("T" :: rest)
         = Ok (Truncate.mk (lit "T") count
                 (convert_bytes_to_int (firstn 1 (skipn 4 rest))) [])).
Proof.
  intros Hneg. split.
  - intros io Hc. rewrite read_tuple_data_eq, Hc. cbv zeta.
    erewrite bind_ok by (apply for_range_negative; lia). reflexivity.
  - intros rest Hc. unfold Truncate.new, __init__.
    erewrite bind_ok by (apply read_byte1; reflexivity).
    unfold Truncate.decode_buffer.
    change (negb (str_eqb _ _)) with false. cbv iota.
    erewrite bind_ok by apply read_int32_eq.
    rewrite remaining_at_1, Hc.
    erewrite bind_ok by apply read_int8_eq.
    rewrite remaining_seek_min, remaining_at_1.
    erewrite bind_ok by (apply for_range_negative; lia).
    reflexivity.
Qed.

Lemma negative_count_gives_empty_list_witness :
  read_tuple_data (open [xff; xfe; "n"])
  = Ok (mkTupleData (-2) [], mkBytesIO [xff; xfe; "n"] 2)
  /\ Truncate.new ["T"; xff; xff; xff; xff; x01; x00; x00; x00; x07]
     = Ok (Truncate.mk (lit "T") (-1) 1 []).
Proof.
  split.
  - apply (proj1 (negative_count_gives_empty_list (-2) eq_refl)
             (open [xff; xfe; "n"]) eq_refl).
  - apply (proj2 (negative_count_gives_empty_list (-1) eq_refl)
             [xff; xff; xff; xff; x01; x00; x00; x00; x07] eq_refl).
Defined.

Local Close Scope byte_scope.

(** ** The message classes *)

Section Messages.

Local Open Scope byte_scope.

Lemma str_eqb_tag b c : str_eqb [byte_to_Z b] [byte_to_Z c] = Byte.eqb b c.
Proof.
  cbn [str_eqb]. rewrite andb_true_r.
  destruct (Byte.eqb b c) eqn:E.
  - apply Byte.byte_dec_bl in E. subst. apply Z.eqb_refl.
  - apply Byte.eqb_false in E. apply Z.eqb_neq.
    intros H. apply E. now apply byte_to_Z_inj.
Qed.

(** The four bytes behind [byte1] are the relation id of Insert, Update
    and Delete. *)
Lemma read_relation_id tag rid4 rest :
  length rid4 = 4%nat ->
  read_int32 (mkBytesIO (tag :: rid4 ++ rest) 1)
  = Ok (convert_bytes_to_int rid4, mkBytesIO (tag :: rid4 ++ rest) 5).
Proof.
  intros H. rewrite read_int32_eq, remaining_at_1.
  rewrite firstn_app, H, firstn_all2, app_nil_r by lia.
  rewrite length_app, H. reflexivity.
Qed.

Lemma remaining_at_5 tag rid4 rest :
  length rid4 = 4%nat ->
  remaining (mkBytesIO (tag :: rid4 ++ rest) 5) = rest.
Proof.
  intros H. unfold remaining. cbn [getvalue tell].
  change 5%nat with (4 + 1)%nat. rewrite <- skipn_skipn.
  change (skipn 1 (tag :: rid4 ++ rest)) with (rid4 ++ rest).
  rewrite skipn_app, H, skipn_all2, Nat.sub_diag by lia. reflexivity.
Qed.

Lemma read_tag tag rid4 b rest :
  length rid4 = 4%nat ->
  read_utf8 1 (mkBytesIO (tag :: rid4 ++ b :: rest) 5)
  = if byte_to_Z b <? 128
    then Ok ([byte_to_Z b], mkBytesIO (tag :: rid4 ++ b :: rest) 6)
    else Raise InvalidEncoding.
Proof.
  intros H.
  change (mkBytesIO (tag :: rid4 ++ b :: rest) 6)
    with (seek (mkBytesIO (tag :: rid4 ++ b :: rest) 5) 1).
  apply (read_utf8_1_cons _ b rest). now apply remaining_at_5.
Qed.

End Messages.

(** ** Claims about the message classes *)

Local Open Scope byte_scope.

(** C5: [Insert.decode_buffer] stores the byte behind the relation id in
    [new_tuple_byte] and goes on to the tuple without comparing it with
    ['N']: with any 7-bit byte in that place the decode succeeds whenever
    reading the tuple does.  The claim asks for a failure. *)
Theorem Insert_keeps_any_new_tuple_byte
  (rid4 rest : list byte) (b : byte) :
  length rid4 = 4%nat ->
  byte_to_Z b < 128 ->
  let buffer := "I" :: rid4 ++ b :: rest in
  Insert.new buffer
  = match read_tuple_data (mkBytesIO buffer 6) with
    | Ok (new_tuple, _) =>
        Ok (Insert.mk (lit "I") (convert_bytes_to_int rid4) [byte_to_Z b]
                      new_tuple)
    | Raise e => Raise e
    | OutOfFuel => OutOfFuel
    end.
Proof.
  intros H Hb buffer. subst buffer. unfold Insert.new, __init__.
  erewrite bind_ok by (apply read_byte1; reflexivity).
  unfold Insert.decode_buffer.
  change (negb (str_eqb _ _)) with false. cbv iota.
  erewrite bind_ok by (apply read_relation_id; exact H).
  erewrite bind_ok
    by (rewrite read_tag by exact H;
        destruct (Z.ltb_spec (byte_to_Z b) 128); [reflexivity|lia]).
  unfold bind, ret.
  destruct (read_tuple_data _) as [[new_tuple io]|e|]; reflexivity.
Qed.

Lemma Insert_keeps_any_new_tuple_byte_witness :
  Insert.new ["I"; x00; x00; x00; x01; "X"; x00; x00]
  = Ok (Insert.mk (lit "I") 1 (lit "X") (mkTupleData 0 [])).
Proof.
  apply (Insert_keeps_any_new_tuple_byte [x00; x00; x00; x01] [x00; x00] "X");
    reflexivity.
Defined.

(** C7, as stated, fails: with 0xFF behind the relation id, a byte that is
    neither ['K'] nor ['O'], Delete fails in [read_utf8] with the encoding
    error, before the tag is compared. *)
Lemma Delete_non_ascii_tag :
  Delete.new ["D"; x00; x00; x00; x01; xff] = Raise InvalidEncoding
  /\ forall got,
       Delete.new ["D"; x00; x00; x00; x01; xff]
       <> Raise (InvalidReplicaIdentityOrMessageTag got).
Proof. split; [reflexivity|discriminate]. Qed.

(** C7, amended: in a Delete buffer, when the byte behind the relation id
    is a 7-bit byte other than ['K'] and ['O'], or when the buffer ends
    there, the decode fails with [InvalidReplicaIdentityOrMessageTag];
    when it is 0x80 or above the decode fails with [InvalidEncoding];
    when it is ['K'] or ['O'], one TupleData is read behind it and becomes
    the old tuple. *)
Theorem Delete_tag (rid4 rest : list byte) :
  length rid4 = 4%nat ->
  let buffer := "D" :: rid4 ++ rest in
  Delete.new buffer
  = match rest with
    | [] => Raise (InvalidReplicaIdentityOrMessageTag [])
    | b :: _ =>
      if 128 <=? byte_to_Z b then Raise InvalidEncoding
      else if Byte.eqb b "K" || Byte.eqb b "O" then
        match read_tuple_data (mkBytesIO buffer 6) with
        | Ok (old_tuple, _) =>
            Ok (Delete.mk (lit "D") (convert_bytes_to_int rid4)
                          [byte_to_Z b] old_tuple)
        | Raise e => Raise e
        | OutOfFuel => OutOfFuel
        end
      else Raise (InvalidReplicaIdentityOrMessageTag [byte_to_Z b])
    end.
Proof.
  intros H buffer. subst buffer. unfold Delete.new, __init__.
  erewrite bind_ok by (apply read_byte1; reflexivity).
  unfold Delete.decode_buffer.
  change (negb (str_eqb _ _)) with false. cbv iota.
  erewrite bind_ok by (apply read_relation_id; exact H).
  destruct rest as [|b rest].
  - erewrite bind_ok
      by (apply read_utf8_1_eof; apply remaining_at_5; exact H).
    reflexivity.
  - unfold bind at 1. rewrite read_tag by exact H.
    destruct (Z.ltb_spec (byte_to_Z b) 128) as [Hb|Hb];
      destruct (Z.leb_spec 128 (byte_to_Z b)) as [Hb'|Hb']; try lia;
      [|reflexivity].
    unfold str_in, existsb.
    change (lit "K") with [byte_to_Z "K"].
    change (lit "O") with [byte_to_Z "O"].
    rewrite !str_eqb_tag, orb_false_r.
    destruct (Byte.eqb b "K" || Byte.eqb b "O"); cbn [negb]; [|reflexivity].
    unfold bind, ret.
    destruct (read_tuple_data _) as [[old_tuple io]|e|]; reflexivity.
Qed.

Lemma Delete_tag_witness :
  Delete.new ["D"; x00; x00; x00; x01; "K"; x00; x01; "n"]
  = Ok (Delete.mk (lit "D") 1 (lit "K")
          (mkTupleData 1 [mkColumnData (Some (lit "n")) None None])).
Proof.
  apply (Delete_tag [x00; x00; x00; x01] ["K"; x00; x01; "n"]). reflexivity.
Defined.

(** C6, as stated, fails: behind a ['K'] old tuple the byte 0xFF is not
    ['N'], yet Update fails in [read_utf8] with the encoding error and not
    with the missing-marker error. *)
Lemma Update_non_ascii_marker :
  Update.new ["U"; x00; x00; x00; x01; "K"; x00; x00; xff]
  = Raise InvalidEncoding
  /\ forall position found,
       Update.new ["U"; x00; x00; x00; x01; "K"; x00; x00; xff]
       <> Raise (ExpectedNewTupleMarker position found).
Proof. split; [reflexivity|discriminate]. Qed.

(** C6, amended: in an Update buffer whose byte behind the relation id is
    ['K'] or ['O'], that byte is recorded as the identifier kind and one
    TupleData is decoded as the old tuple; the decode then fails with
    [ExpectedNewTupleMarker] when the buffer ends or the next byte is a
    7-bit byte other than ['N'], fails with [InvalidEncoding] when the next
    byte is 0x80 or above, and on ['N'] decodes one TupleData as the new
    tuple.  When the byte behind the relation id is ['N'] itself, the
    identifier kind and the old tuple are none and one TupleData is decoded
    as the new tuple. *)
Theorem Update_grammar (rid4 rest : list byte) (b : byte) :
  length rid4 = 4%nat ->
  let buffer := "U" :: rid4 ++ b :: rest in
  let relation_id := convert_bytes_to_int rid4 in
  (b = "K" \/ b = "O" ->
   forall old_tuple io,
     read_tuple_data (mkBytesIO buffer 6) = Ok (old_tuple, io) ->
     Update.new buffer
     = match remaining io with
       | [] => Raise (ExpectedNewTupleMarker (tell io) [])
       | c :: _ =>
         if 128 <=? byte_to_Z c then Raise InvalidEncoding
         else if Byte.eqb c "N" then
           match read_tuple_data (seek io 1) with
           | Ok (new_tuple, _) =>
               Ok (Update.mk (lit "U") relation_id [byte_to_Z b]
                     (Some [byte_to_Z b]) (Some old_tuple) (lit "N")
                     new_tuple)
           | Raise e => Raise e
           | OutOfFuel => OutOfFuel
           end
         else Raise (ExpectedNewTupleMarker (tell io + 1) [byte_to_Z c])
       end)
  /\ (b = "N" ->
      Update.new buffer
      = match read_tuple_data (mkBytesIO buffer 6) with
        | Ok (new_tuple, _) =>
            Ok (Update.mk (lit "U") relation_id (lit "N") None None (lit "N")
                  new_tuple)
        | Raise e => Raise e
        | OutOfFuel => OutOfFuel
        end).
Proof.
  intros H buffer relation_id. subst buffer relation_id.
  assert (Hstart :
             byte_to_Z b < 128 ->
             (x <- read_utf8 1 ;; Update.decode_buffer x)
               (open ("U" :: rid4 ++ b :: rest))
             = (branch <-
                  (if str_eqb [byte_to_Z b] (lit "K")
                      || str_eqb [byte_to_Z b] (lit "O")
                   then
                     old_tuple <- read_tuple_data ;;
                     new_tuple_byte <- read_utf8 1 ;;
                     ret (Some [byte_to_Z b], Some old_tuple, new_tuple_byte)
                   else ret (None, None, [byte_to_Z b])) ;;
                let '(optional_tuple_identifier, old_tuple, new_tuple_byte) :=
                  branch in
                if negb (str_eqb new_tuple_byte (lit "N")) then
                  pos <- Update.position ;;
                  raise (ExpectedNewTupleMarker pos new_tuple_byte)
                else
                  new_tuple <- read_tuple_data ;;
                  ret (Update.mk (lit "U") (convert_bytes_to_int rid4)
                         [byte_to_Z b] optional_tuple_identifier old_tuple
                         new_tuple_byte new_tuple))
                 (mkBytesIO ("U" :: rid4 ++ b :: rest) 6)).
  { intros Hb.
    erewrite bind_ok by (apply read_byte1; reflexivity).
    unfold Update.decode_buffer.
    change (negb (str_eqb [byte_to_Z "U"] (lit "U"))) with false. cbv iota.
    erewrite bind_ok by (apply read_relation_id; exact H).
    erewrite bind_ok
      by (rewrite read_tag by exact H;
          destruct (Z.ltb_spec (byte_to_Z b) 128); [reflexivity|lia]).
    reflexivity. }
  split.
  - intros Hb old_tuple io Hold. unfold Update.new, __init__.
    rewrite Hstart by (destruct Hb; subst b; reflexivity).
    replace (str_eqb [byte_to_Z b] (lit "K") || str_eqb [byte_to_Z b] (lit "O"))
      with true by (destruct Hb; subst b; reflexivity).
    unfold bind at 1. unfold bind at 1. rewrite Hold. unfold bind at 1.
    destruct (remaining io) as [|c rest'] eqn:R.
    + rewrite (read_utf8_1_eof io R). unfold ret.
      change (negb (str_eqb [] (lit "N"))) with true. cbv iota.
      unfold bind, Update.position, raise, seek. cbn [tell].
      now rewrite Nat.add_0_r.
    + rewrite (read_utf8_1_cons io c rest' R).
      destruct (Z.ltb_spec (byte_to_Z c) 128) as [Hc|Hc];
        destruct (Z.leb_spec 128 (byte_to_Z c)) as [Hc'|Hc']; try lia;
        [|reflexivity].
      unfold ret. change (lit "N") with [byte_to_Z "N"] at 1.
      rewrite str_eqb_tag.
      destruct (Byte.eqb c "N") eqn:E; cbn [negb].
      * apply Byte.byte_dec_bl in E. subst c. unfold bind.
        destruct (read_tuple_data (seek io 1)) as [[new_tuple io']|e|];
          reflexivity.
      * reflexivity.
  - intros ->. unfold Update.new, __init__.
    rewrite Hstart by reflexivity.
    change (str_eqb _ _ || str_eqb _ _) with false. cbv iota.
    unfold bind at 1. unfold ret at 1.
    change (negb (str_eqb _ _)) with false. cbv iota.
    unfold bind, ret.
    destruct (read_tuple_data _) as [[new_tuple io']|e|]; reflexivity.
Qed.

Lemma Update_grammar_witness :
  Update.new ["U"; x00; x00; x00; x01; "K"; x00; x01; "n";
              "N"; x00; x01; "u"]
  = Ok (Update.mk (lit "U") 1 (lit "K") (Some (lit "K"))
          (Some (mkTupleData 1 [mkColumnData (Some (lit "n")) None None]))
          (lit "N")
          (mkTupleData 1 [mkColumnData (Some (lit "u")) None None]))
  /\ Update.new ["U"; x00; x00; x00; x01; "N"; x00; x01; "u"]
     = Ok (Update.mk (lit "U") 1 (lit "N") None None (lit "N")
             (mkTupleData 1 [mkColumnData (Some (lit "u")) None None])).
Proof.
  split.
  - apply (proj1 (Update_grammar [x00; x00; x00; x01]
                    [x00; x01; "n"; "N"; x00; x01; "u"] "K" eq_refl)
             (or_introl eq_refl)
             (mkTupleData 1 [mkColumnData (Some (lit "n")) None None])
             (mkBytesIO ["U"; x00; x00; x00; x01; "K"; x00; x01; "n";
                         "N"; x00; x01; "u"] 9)
             eq_refl).
  - apply (proj2 (Update_grammar [x00; x00; x00; x01]
                    [x00; x01; "u"] "N" eq_refl) eq_refl).
Defined.

(** C8: a Begin buffer, one that starts with ['B'] and whose commit
    timestamp is a representable [datetime], decodes to the big-endian
    signed integers at bytes 1 to 8 ([lsn]) and from byte 17 on ([tx_xid]),
    and to the instant 2000-01-01T00:00:00 UTC plus the signed microsecond
    count at bytes 9 to 16 ([commit_ts]). *)
Theorem Begin_fields (buffer : list byte) :
  slice 0 1 buffer = ["B"] ->
  let us := convert_bytes_to_int (slice 9 17 buffer) in
  0 <= micros (datetime_jan1 2000) + us <= datetime_max_micros ->
  Begin.new buffer
  = Ok (Begin.mk (lit "B")
          (convert_bytes_to_int (slice 1 9 buffer))
          (mkDatetime (micros (datetime_jan1 2000) + us))
          (convert_bytes_to_int (slice 17 25 buffer))).
Proof.
  intros Htag us Hrange.
  destruct buffer as [|b rest]; [discriminate|].
  assert (b = "B") by (unfold slice in Htag; simpl in Htag; congruence).
  subst b us. unfold slice in *.
  change (skipn 9 ("B" :: rest)) with (skipn 8 rest) in *.
  change (skipn 1 ("B" :: rest)) with rest.
  change (skipn 17 ("B" :: rest)) with (skipn 16 rest).
  change (17 - 9)%nat with 8%nat in *. change (9 - 1)%nat with 8%nat.
  change (25 - 17)%nat with 8%nat.
  unfold Begin.new, __init__.
  erewrite bind_ok by (apply read_byte1; reflexivity).
  unfold Begin.decode_buffer.
  change (negb (str_eqb _ _)) with false. cbv iota.
  erewrite bind_ok by apply read_int64_eq.
  rewrite remaining_at_1.
  set (io1 := seek _ (Nat.min 8 (length rest))).
  assert (R1 : remaining io1 = skipn 8 rest).
  { pose proof (remaining_seek_min (mkBytesIO ("B" :: rest) 1) 8) as P.
    rewrite remaining_at_1 in P. exact P. }
  erewrite bind_ok.
  2:{ unfold read_timestamp. erewrite bind_ok by apply read_int64_eq.
      rewrite R1. unfold lift, convert_pg_ts, datetime_add.
      destruct (Z.leb_spec 0 (micros (datetime_jan1 2000)
                  + convert_bytes_to_int (firstn 8 (skipn 8 rest))));
        [|lia].
      destruct (Z.leb_spec (micros (datetime_jan1 2000)
                  + convert_bytes_to_int (firstn 8 (skipn 8 rest)))
                  datetime_max_micros); [|lia].
      reflexivity. }
  assert (R2 : remaining (seek io1 (Nat.min 8 (length (skipn 8 rest))))
               = skipn 16 rest).
  { rewrite <- R1. now rewrite remaining_seek_min, R1, skipn_skipn. }
  erewrite bind_ok by apply read_int64_eq.
  rewrite R2. reflexivity.
Qed.

Lemma Begin_fields_witness :
  Begin.new ["B"; x00; x00; x00; x00; x00; x00; x00; x64;
             x00; x00; x00; x00; x47; x86; x8c; x00;
             x00; x00; x00; x00; x00; x00; x02; x2b]
  = Ok (Begin.mk (lit "B") 100
          (mkDatetime (micros (datetime_jan1 2000) + 1200000000)) 555).
Proof.
  apply (Begin_fields
           ["B"; x00; x00; x00; x00; x00; x00; x00; x64;
            x00; x00; x00; x00; x47; x86; x8c; x00;
            x00; x00; x00; x00; x00; x00; x02; x2b]).
  - reflexivity.
  - vm_compute. split; discriminate.
Defined.

(** C9: the dispatcher answers a buffer whose leading byte is none of B, C,
    R, I, U, D, T with [UnsupportedMessageType]; the Origin tag ['O'] and
    the Type tag ['Y'] are such bytes. *)
Theorem dispatch_unsupported (fuel : nat) (tag : byte) (rest : list byte) :
  ~ In tag ["B"; "C"; "R"; "I"; "U"; "D"; "T"] ->
  dispatch fuel (tag :: rest) = Raise UnsupportedMessageType.
Proof.
  intros Hnot. unfold dispatch, decoders. cbn [find fst].
  repeat match goal with
         | |- context [Byte.eqb ?c tag] =>
             destruct (Byte.eqb c tag) eqn:?E;
             [apply Byte.byte_dec_bl in E; exfalso; apply Hnot;
              rewrite <- E; simpl; tauto
             |clear E]
         end.
  reflexivity.
Qed.

Lemma dispatch_unsupported_witness :
  dispatch 0 ["O"; x00; x00; x00; x00; x00; x00; x00; x01; "a"; x00]
  = Raise UnsupportedMessageType
  /\ dispatch 0 ["Y"; x00; x00; x00; x17; x00; "i"; x00]
     = Raise UnsupportedMessageType.
Proof.
  split; apply dispatch_unsupported;
    simpl; intros H; repeat destruct H as [H|H]; try discriminate H;
    exact H.
Defined.

Local Close Scope byte_scope.

(** ** Whole messages, evaluated *)

Local Open Scope byte_scope.

(** A Relation buffer that ends inside the namespace: the constructor
    does not return, whatever the fuel. *)
Lemma Relation_unterminated_namespace fuel :
  Relation.new fuel ["R"; x00; x00; x00; x01; "p"; "u"; "b"; "l"; "i"; "c"]
  = OutOfFuel.
Proof.
  unfold Relation.new, __init__.
  erewrite bind_ok by (apply read_byte1; reflexivity).
  unfold Relation.decode_buffer.
  change (negb (str_eqb _ _)) with false. cbv iota.
  erewrite bind_ok
    by (apply (read_relation_id "R" [x00; x00; x00; x01]); reflexivity).
  rewrite bind_out_of_fuel; [reflexivity|].
  unfold read_string. apply bind_out_of_fuel.
  apply read_string_loop_unterminated.
  rewrite (remaining_at_5 "R" [x00; x00; x00; x01]) by reflexivity.
  simpl. intros H. repeat destruct H as [H|H]; try discriminate H; exact H.
Qed.

(** An Insert whose tuple announces one column tagged ['x']. *)
Example Insert_with_unknown_column_tag :
  Insert.new ["I"; x00; x00; x00; x01; "N"; x00; x01; "x"]
  = Ok (Insert.mk (lit "I") 1 (lit "N") (mkTupleData 1 [])).
Proof. reflexivity. Qed.

(** The Begin message of a real stream is 21 bytes long, its xid being an
    Int32; [read_int64] then gets the four bytes that are left. *)
Example Begin_with_int32_xid :
  Begin.new ["B"; x00; x00; x00; x00; x00; x00; x00; x64;
             x00; x00; x00; x00; x00; x00; x00; x01;
             x00; x00; x02; x2b]
  = Ok (Begin.mk (lit "B") 100
          (mkDatetime (micros (datetime_jan1 2000) + 1)) 555).
Proof. reflexivity. Qed.

(** A commit timestamp beyond year 9999 makes the constructor fail. *)
Example Begin_timestamp_out_of_range :
  Begin.new ["B"; x00; x00; x00; x00; x00; x00; x00; x64;
             x7f; xff; xff; xff; xff; xff; xff; xff;
             x00; x00; x00; x00; x00; x00; x02; x2b]
  = Raise DateValueOutOfRange.
Proof. reflexivity. Qed.

(** Each class of decoders.py refuses a buffer that starts with another
    7-bit byte than its own tag. *)
Lemma foreign_tag_refused (b : byte) (rest : list byte) (fuel : nat) :
  byte_to_Z b < 128 ->
  (b <> "B" -> Begin.new (b :: rest)
               = Raise (TagMismatch (lit "B") [byte_to_Z b]))
  /\ (b <> "C" -> Commit.new (b :: rest)
                  = Raise (TagMismatch (lit "C") [byte_to_Z b]))
  /\ (b <> "R" -> Relation.new fuel (b :: rest)
                  = Raise (TagMismatch (lit "R") [byte_to_Z b]))
  /\ (b <> "I" -> Insert.new (b :: rest)
                  = Raise (TagMismatch (lit "I") [byte_to_Z b]))
  /\ (b <> "U" -> Update.new (b :: rest)
                  = Raise (TagMismatch (lit "U") [byte_to_Z b]))
  /\ (b <> "D" -> Delete.new (b :: rest)
                  = Raise (TagMismatch (lit "D") [byte_to_Z b]))
  /\ (b <> "T" -> Truncate.new (b :: rest)
                  = Raise (TagMismatch (lit "T") [byte_to_Z b])).
Proof.
  intros Hb.
  assert (Hne : forall c, b <> c ->
                  negb (str_eqb [byte_to_Z b] [byte_to_Z c]) = true).
  { intros c Hc. rewrite str_eqb_tag.
    destruct (Byte.eqb b c) eqn:E; [|reflexivity].
    apply Byte.byte_dec_bl in E. contradiction. }
  assert (Hrun : forall A (decode_buffer : str -> M A) c,
             b <> c ->
             (forall byte1,
                 negb (str_eqb byte1 [byte_to_Z c]) = true ->
                 forall io, decode_buffer byte1 io
                            = Raise (TagMismatch [byte_to_Z c] byte1)) ->
             __init__ decode_buffer (b :: rest)
             = Raise (TagMismatch [byte_to_Z c] [byte_to_Z b])).
  { intros A decode_buffer c Hc Hd. unfold __init__.
    erewrite bind_ok by (apply read_byte1; exact Hb).
    now rewrite (Hd _ (Hne c Hc)). }
  repeat split; intros Hc;
    match type of Hc with
    | b <> ?c =>
        apply (Hrun _ _ c Hc); intros byte1 Hbyte1 io;
        unfold Begin.decode_buffer, Commit.decode_buffer,
          Relation.decode_buffer, Insert.decode_buffer, Update.decode_buffer,
          Delete.decode_buffer, Truncate.decode_buffer;
        match goal with
        | |- context [negb (str_eqb byte1 ?l)] =>
            change (negb (str_eqb byte1 l))
              with (negb (str_eqb byte1 [byte_to_Z c]))
        end;
        rewrite Hbyte1; reflexivity
    end.
Qed.

Local Close Scope byte_scope.

(** * Further properties of the module *)

(** ** int.from_bytes *)

Section FromBytes.

Lemma unsigned_be_acc bs :
  forall acc,
    unsigned_be acc bs
    = acc * 256 ^ Z.of_nat (length bs) + unsigned_be 0 bs.
Proof.
  induction bs as [|b bs IH]; intros acc.
  - simpl. lia.
  - cbn [unsigned_be length]. rewrite IH, (IH (0 * 256 + byte_to_Z b)).
    rewrite Nat2Z.inj_succ, Z.pow_succ_r by lia. ring.
Qed.

Lemma unsigned_be_range bs :
  0 <= unsigned_be 0 bs < 256 ^ Z.of_nat (length bs).
Proof.
  induction bs as [|b bs IH].
  - simpl. lia.
  - cbn [unsigned_be length]. rewrite unsigned_be_acc.
    rewrite Nat2Z.inj_succ, Z.pow_succ_r by lia.
    pose proof (byte_to_Z_range b). nia.
Qed.

Lemma pow_2_8 n : 0 <= n -> 2 ^ (8 * n) = 256 ^ n.
Proof. intros H. rewrite Z.pow_mul_r by lia. reflexivity. Qed.

Lemma pow_2_8_pred n : 0 < n -> 2 ^ (8 * n - 1) = 128 * 256 ^ (n - 1).
Proof.
  intros H. replace (8 * n - 1) with (7 + 8 * (n - 1)) by lia.
  rewrite Z.pow_add_r, pow_2_8 by lia. reflexivity.
Qed.

(** The value of a non-empty byte string splits into its first byte, taken
    as a signed byte, and the unsigned value of the bytes behind it. *)
Lemma convert_bytes_to_int_cons b bs :
  convert_bytes_to_int (b :: bs)
  = (if 128 <=? byte_to_Z b then byte_to_Z b - 256 else byte_to_Z b)
    * 256 ^ Z.of_nat (length bs)
    + unsigned_be 0 bs.
Proof.
  unfold convert_bytes_to_int. cbn [unsigned_be length].
  rewrite unsigned_be_acc, Nat2Z.inj_succ.
  replace (8 * Z.succ (Z.of_nat (length bs)))
    with (8 * (Z.of_nat (length bs) + 1)) by lia.
  rewrite pow_2_8 by lia. rewrite Z.pow_add_r by lia.
  destruct (128 <=? byte_to_Z b); ring.
Qed.

Lemma signed_range_mono w w' z :
  0 < w <= w' -> signed_range w z -> signed_range w' z.
Proof.
  unfold signed_range. intros Hw Hz.
  assert (2 ^ (8 * w - 1) <= 2 ^ (8 * w' - 1))
    by (apply Z.pow_le_mono_r; lia).
  lia.
Qed.

Lemma convert_bytes_to_int_signed_range bs :
  bs <> [] ->
  signed_range (Z.of_nat (length bs)) (convert_bytes_to_int bs).
Proof.
  destruct bs as [|b bs]; [congruence|intros _].
  unfold signed_range. rewrite convert_bytes_to_int_cons.
  rewrite pow_2_8_pred by (simpl length; lia).
  replace (Z.of_nat (length (b :: bs)) - 1) with (Z.of_nat (length bs))
    by (simpl length; lia).
  pose proof (unsigned_be_range bs) as Hu.
  pose proof (byte_to_Z_range b) as Hb.
  destruct (Z.leb_spec 128 (byte_to_Z b)); nia.
Qed.

(** Reading a field of [w] bytes gives a value in the signed range of [w]
    bytes even when fewer bytes are left. *)
Lemma convert_firstn_signed_range w bs :
  (0 < w)%nat ->
  signed_range (Z.of_nat w) (convert_bytes_to_int (firstn w bs)).
Proof.
  intros Hw. destruct (firstn w bs) as [|b l] eqn:E.
  - unfold signed_range, convert_bytes_to_int.
    assert (0 < 2 ^ (8 * Z.of_nat w - 1)) by (apply Z.pow_pos_nonneg; lia).
    lia.
  - apply (signed_range_mono (Z.of_nat (length (b :: l)))).
    + pose proof (firstn_le_length w bs) as L. rewrite E in L.
      simpl length in *. lia.
    + apply convert_bytes_to_int_signed_range. discriminate.
Qed.

Lemma unsigned_be_inj a :
  forall b,
    length a = length b ->
    unsigned_be 0 a = unsigned_be 0 b ->
    a = b.
Proof.
  induction a as [|x a IH]; intros [|y b] Hl Hu; try discriminate;
    [reflexivity|].
  cbn [unsigned_be length] in *. injection Hl as Hl.
  rewrite (unsigned_be_acc a), (unsigned_be_acc b), <- Hl in Hu.
  pose proof (unsigned_be_range a) as Ra.
  pose proof (unsigned_be_range b) as Rb. rewrite <- Hl in Rb.
  pose proof (byte_to_Z_range x) as Rx.
  pose proof (byte_to_Z_range y) as Ry.
  assert (byte_to_Z x = byte_to_Z y) by nia.
  assert (unsigned_be 0 a = unsigned_be 0 b) by nia.
  f_equal; [now apply byte_to_Z_inj | now apply IH].
Qed.

End FromBytes.

(** X1: a non-empty string of [n] bytes converts to an integer of the
    signed [n]-byte range, from [-2^(8n-1)] up to [2^(8n-1) - 1]. *)
Theorem convert_bytes_to_int_range (bs : list byte) :
  bs <> [] ->
  - 2 ^ (8 * Z.of_nat (length bs) - 1)
  <= convert_bytes_to_int bs
  < 2 ^ (8 * Z.of_nat (length bs) - 1).
Proof. intros H. exact (convert_bytes_to_int_signed_range bs H). Qed.

Lemma convert_bytes_to_int_range_witness :
  - 2 ^ (8 * Z.of_nat (length [x80; x00]) - 1)
  <= convert_bytes_to_int [x80; x00]
  < 2 ^ (8 * Z.of_nat (length [x80; x00]) - 1).
Proof.
  apply (convert_bytes_to_int_range [x80; x00]). discriminate.
Defined.

Lemma convert_bytes_to_int_inj (a b : list byte) :
  length a = length b ->
  convert_bytes_to_int a = convert_bytes_to_int b ->
  a = b.
Proof.
  intros Hl Hv.
  destruct a as [|x a], b as [|y b]; try discriminate; [reflexivity|].
  rewrite !convert_bytes_to_int_cons in Hv.
  simpl in Hl. injection Hl as Hl. rewrite <- Hl in Hv.
  pose proof (unsigned_be_range a) as Ra.
  pose proof (unsigned_be_range b) as Rb. rewrite <- Hl in Rb.
  pose proof (byte_to_Z_range x) as Rx.
  pose proof (byte_to_Z_range y) as Ry.
  assert (Hxy : byte_to_Z x = byte_to_Z y).
  { destruct (Z.leb_spec 128 (byte_to_Z x));
      destruct (Z.leb_spec 128 (byte_to_Z y)); nia. }
  rewrite Hxy in Hv.
  assert (unsigned_be 0 a = unsigned_be 0 b) by lia.
  f_equal; [now apply byte_to_Z_inj | now apply unsigned_be_inj].
Qed.

(** X2: at a fixed width nothing is lost in the conversion: two different
    byte strings of the same length convert to different integers. *)
Theorem convert_bytes_to_int_distinct (a b : list byte) :
  length a = length b ->
  a <> b ->
  convert_bytes_to_int a <> convert_bytes_to_int b.
Proof.
  intros Hl Hne Hv. apply Hne. now apply convert_bytes_to_int_inj.
Qed.

Lemma convert_bytes_to_int_distinct_witness :
  convert_bytes_to_int [xff; xff; xff; xfe]
  <> convert_bytes_to_int [x7f; xff; xff; xfe].
Proof.
  apply (convert_bytes_to_int_distinct [xff; xff; xff; xfe]
           [x7f; xff; xff; xfe]); [reflexivity|discriminate].
Defined.

(** ** What the decoders do to the cursor, and how they fail *)

Section Behaviour.

Lemma bind_ok_inv {A B} (m : M A) (k : A -> M B) io r :
  bind m k io = Ok r ->
  exists a io1, m io = Ok (a, io1) /\ k a io1 = Ok r.
Proof.
  unfold bind. destruct (m io) as [[a io1]|e|]; try discriminate.
  intros H. now exists a, io1.
Qed.

Lemma bind_raise_inv {A B} (m : M A) (k : A -> M B) io e :
  bind m k io = Raise e ->
  m io = Raise e \/ exists a io1, m io = Ok (a, io1) /\ k a io1 = Raise e.
Proof.
  unfold bind. destruct (m io) as [[a io1]|e'|]; try discriminate.
  - intros H. right. now exists a, io1.
  - intros H. left. congruence.
Qed.

Lemma bind_out_of_fuel_inv {A B} (m : M A) (k : A -> M B) io :
  bind m k io = OutOfFuel ->
  m io = OutOfFuel \/ exists a io1, m io = Ok (a, io1) /\ k a io1 = OutOfFuel.
Proof.
  unfold bind. destruct (m io) as [[a io1]|e'|]; try discriminate.
  - intros H. right. now exists a, io1.
  - intros H. left. reflexivity.
Qed.

(** *** forward_only *)

Lemma forward_only_ret {A} (a : A) : forward_only (ret a).
Proof.
  intros io a' io' H. inversion H; subst. repeat split; lia.
Qed.

Lemma forward_only_bind {A B} (m : M A) (k : A -> M B) :
  forward_only m -> (forall a, forward_only (k a)) -> forward_only (bind m k).
Proof.
  intros Hm Hk io b io' H.
  apply bind_ok_inv in H as (a & io1 & H1 & H2).
  apply Hm in H1 as (G1 & L1 & U1). apply Hk in H2 as (G2 & L2 & U2).
  rewrite G1 in *. repeat split; [congruence|lia|lia].
Qed.

Lemma forward_only_lift {A} (o : outcome A) : forward_only (lift o).
Proof.
  intros io a io' H. unfold lift in H. destruct o; inversion H; subst.
  repeat split; lia.
Qed.

Lemma forward_only_read n : forward_only (read n).
Proof.
  intros io bs io' H. unfold read in H. inversion H; subst; clear H.
  cbn [getvalue tell]. split; [reflexivity|]. split; [lia|].
  destruct ((n <? 0) || _) eqn:E; [lia|].
  apply orb_false_iff in E as [E1 E2].
  apply Z.ltb_ge in E1, E2. lia.
Qed.

Lemma forward_only_repeat {A} (body : A -> M A) count :
  (forall acc, forward_only (body acc)) ->
  forall acc, forward_only (repeat_M count body acc).
Proof.
  intros Hb. induction count as [|count IH]; intros acc; cbn [repeat_M].
  - apply forward_only_ret.
  - apply forward_only_bind; [apply Hb|exact IH].
Qed.

Lemma forward_only_read_int w :
  forward_only (bs <- read w ;; ret (convert_bytes_to_int bs)).
Proof.
  apply forward_only_bind; [apply forward_only_read|].
  intros bs. apply forward_only_ret.
Qed.

Lemma forward_only_read_utf8 n : forward_only (read_utf8 n).
Proof.
  apply forward_only_bind; [apply forward_only_read|].
  intros bs. apply forward_only_lift.
Qed.

Lemma forward_only_read_string_loop fuel :
  forall output, forward_only (read_string_loop fuel output).
Proof.
  induction fuel as [|fuel IH]; intros output; cbn [read_string_loop].
  - intros io a io' H. discriminate.
  - apply forward_only_bind; [apply forward_only_read|].
    intros bs. destruct (bytes_eqb bs [x00]);
      [apply forward_only_ret|apply IH].
Qed.

Lemma forward_only_read_column acc : forward_only (read_column acc).
Proof.
  unfold read_column.
  apply forward_only_bind; [apply forward_only_read_utf8|]. intros cat.
  destruct (str_in _ _); [apply forward_only_ret|].
  destruct (str_eqb _ _); [|apply forward_only_ret].
  apply forward_only_bind; [apply forward_only_read_int|]. intros len.
  apply forward_only_bind; [apply forward_only_read_utf8|]. intros s.
  apply forward_only_ret.
Qed.

(** *** fails_only_on_encoding *)

Lemma encoding_ret {A} (a : A) : fails_only_on_encoding (ret a).
Proof. intros io. split; intros; discriminate. Qed.

Lemma encoding_bind {A B} (m : M A) (k : A -> M B) :
  fails_only_on_encoding m ->
  (forall a, fails_only_on_encoding (k a)) ->
  fails_only_on_encoding (bind m k).
Proof.
  intros Hm Hk io. split.
  - intros H. apply bind_out_of_fuel_inv in H as [H|(a & io1 & _ & H)].
    + now apply (proj1 (Hm io)).
    + now apply (proj1 (Hk a io1)).
  - intros e H. apply bind_raise_inv in H as [H|(a & io1 & _ & H)].
    + now apply (proj2 (Hm io)).
    + now apply (proj2 (Hk a io1)).
Qed.

Lemma encoding_read n : fails_only_on_encoding (read n).
Proof. intros io. split; intros; discriminate. Qed.

Lemma encoding_read_int w :
  fails_only_on_encoding (bs <- read w ;; ret (convert_bytes_to_int bs)).
Proof.
  apply encoding_bind; [apply encoding_read|]. intros bs. apply encoding_ret.
Qed.

Lemma encoding_read_utf8 n : fails_only_on_encoding (read_utf8 n).
Proof.
  apply encoding_bind; [apply encoding_read|]. intros bs io.
  unfold lift, convert_bytes_to_utf8.
  destruct (utf8_decode bs); split; intros; try discriminate; congruence.
Qed.

Lemma encoding_repeat {A} (body : A -> M A) count :
  (forall acc, fails_only_on_encoding (body acc)) ->
  forall acc, fails_only_on_encoding (repeat_M count body acc).
Proof.
  intros Hb. induction count as [|count IH]; intros acc; cbn [repeat_M].
  - apply encoding_ret.
  - apply encoding_bind; [apply Hb|exact IH].
Qed.

Lemma encoding_read_column acc : fails_only_on_encoding (read_column acc).
Proof.
  unfold read_column.
  apply encoding_bind; [apply encoding_read_utf8|]. intros cat.
  destruct (str_in _ _); [apply encoding_ret|].
  destruct (str_eqb _ _); [|apply encoding_ret].
  apply encoding_bind; [apply encoding_read_int|]. intros len.
  apply encoding_bind; [apply encoding_read_utf8|]. intros s.
  apply encoding_ret.
Qed.

(** *** The shape of decoded columns *)




End Behaviour.

(** X3: every read helper keeps the buffer as it is, never moves the
    cursor backwards and never moves it beyond the end of the buffer. *)
Theorem read_helpers_forward_only :
  forward_only read_int8 /\ forward_only read_int16
  /\ forward_only read_int32 /\ forward_only read_int64
  /\ (forall n, forward_only (read_utf8 n))
  /\ forward_only read_timestamp
  /\ (forall fuel, forward_only (read_string fuel))
  /\ forward_only read_tuple_data.
Proof.
  do 4 (split; [apply forward_only_read_int|]).
  split; [intros n; apply forward_only_read_utf8|].
  split; [|split].
  - apply forward_only_bind; [apply forward_only_read_int|].
    intros us. apply forward_only_lift.
  - intros fuel. apply forward_only_bind;
      [apply forward_only_read_string_loop|].
    intros bs. apply forward_only_lift.
  - apply forward_only_bind; [apply forward_only_read_int|]. intros n.
    apply forward_only_bind;
      [apply forward_only_repeat; apply forward_only_read_column|].
    intros cols. apply forward_only_ret.
Qed.

(** X4: [read_tuple_data] always comes to an end, and the only exception
    it can end with is the encoding error of [bytes.decode]. *)
Theorem read_tuple_data_fails_only_on_encoding (io : BytesIO) :
  read_tuple_data io <> OutOfFuel
  /\ forall e, read_tuple_data io = Raise e -> e = InvalidEncoding.
Proof.
  revert io. fold (fails_only_on_encoding read_tuple_data).
  apply encoding_bind; [apply encoding_read_int|]. intros n.
  apply encoding_bind;
    [apply encoding_repeat; apply encoding_read_column|].
  intros cols. apply encoding_ret.
Qed.



(** ** read_string on a terminated name *)

Section ReadStringResult.

Lemma read_string_loop_inv fuel :
  forall output io output' io',
    read_string_loop fuel output io = Ok (output', io') ->
    exists pre,
      output' = output ++ pre
      /\ remaining io = pre ++ x00 :: remaining io'
      /\ ~ In x00 pre
      /\ io' = seek io (S (length pre)).
Proof.
  induction fuel as [|fuel IH]; intros output io output' io' H;
    [discriminate|].
  cbn [read_string_loop] in H.
  apply bind_ok_inv in H as (bs & io1 & H1 & H2).
  rewrite read_nonneg in H1 by lia. change (Z.to_nat 1) with 1%nat in H1.
  inversion H1; subst bs io1; clear H1.
  destruct (remaining io) as [|b r] eqn:R.
  - change (firstn 1 []) with (@nil byte) in H2.
    change (bytes_eqb [] [x00]) with false in H2. cbv iota in H2.
    apply IH in H2 as (pre & _ & Hrem & _).
    rewrite remaining_seek, R in Hrem. simpl in Hrem.
    destruct pre; discriminate.
  - change (firstn 1 (b :: r)) with [b] in H2.
    change (Nat.min 1 (length (b :: r))) with 1%nat in H2.
    unfold bytes_eqb in H2.
    destruct (list_eq_dec Byte.byte_eq_dec [b] [x00]) as [E|E].
    + inversion H2; subst; clear H2. inversion E; subst.
      exists []. rewrite app_nil_r, remaining_seek, R.
      repeat split; auto.
    + apply IH in H2 as (pre & Hout & Hrem & Hz & Hio).
      exists (b :: pre). rewrite remaining_seek, R in Hrem.
      simpl in Hrem. rewrite Hrem, Hout, <- app_assoc, Hio, seek_seek.
      repeat split; auto.
      intros [Hb|Hin]; [apply E; congruence|contradiction].
Qed.

End ReadStringResult.

(** X6: when a zero byte is left in the buffer, [read_string] consumes the
    bytes up to and including the first zero byte and returns the bytes in
    front of it, decoded (or the encoding error when they are not UTF-8);
    as many evaluations of the loop condition as the name has bytes, plus
    one, are enough. *)
Theorem read_string_returns_name
  (io : BytesIO) (pre rest : list byte) (fuel : nat) :
  remaining io = pre ++ x00 :: rest ->
  ~ In x00 pre ->
  (length pre < fuel)%nat ->
  read_string fuel io
  = match utf8_decode pre with
    | Some s => Ok (s, seek io (S (length pre)))
    | None => Raise InvalidEncoding
    end.
Proof.
  intros R Hz Hf. rewrite (read_string_terminated io pre rest fuel R Hz Hf).
  unfold lift, convert_bytes_to_utf8. destruct (utf8_decode pre); reflexivity.
Qed.

Lemma read_string_returns_name_witness :
  read_string 7 (open [x70; x75; x62; x6c; x69; x63; x00; x74; x00])
  = Ok (lit "public",
        seek (open [x70; x75; x62; x6c; x69; x63; x00; x74; x00]) 7).
Proof.
  apply (read_string_returns_name
           (open [x70; x75; x62; x6c; x69; x63; x00; x74; x00])
           [x70; x75; x62; x6c; x69; x63] [x74; x00] 7).
  - reflexivity.
  - simpl. intros H. repeat destruct H as [H|H]; try discriminate H; exact H.
  - simpl. lia.
Defined.

(** X7: whenever [read_string] returns, it has consumed exactly the bytes
    up to and including the first zero byte that was left, and what it
    returns is the decoding of the bytes in front of that zero byte. *)
Theorem read_string_result
  (fuel : nat) (io io' : BytesIO) (s : str) :
  read_string fuel io = Ok (s, io') ->
  exists pre,
    remaining io = pre ++ x00 :: remaining io'
    /\ ~ In x00 pre
    /\ utf8_decode pre = Some s
    /\ tell io' = (tell io + S (length pre))%nat.
Proof.
  intros H. unfold read_string in H.
  apply bind_ok_inv in H as (output & io1 & H1 & H2).
  apply read_string_loop_inv in H1 as (pre & Hout & Hrem & Hz & Hio).
  simpl in Hout. subst output.
  unfold lift, convert_bytes_to_utf8 in H2.
  destruct (utf8_decode pre) as [s'|] eqn:D; inversion H2; subst.
  exists pre. repeat split; auto.
Qed.

Lemma read_string_result_witness :
  exists pre,
    remaining (open [x61; x62; x00; x63])
    = pre ++ x00 :: remaining (mkBytesIO [x61; x62; x00; x63] 3)
    /\ ~ In x00 pre
    /\ utf8_decode pre = Some (lit "ab")
    /\ tell (mkBytesIO [x61; x62; x00; x63] 3)
       = (tell (open [x61; x62; x00; x63]) + S (length pre))%nat.
Proof.
  apply (read_string_result 5 (open [x61; x62; x00; x63])
           (mkBytesIO [x61; x62; x00; x63] 3) (lit "ab")).
  reflexivity.
Defined.

(** ** Begin, Commit and Truncate on any buffer *)

Section FixedLayout.

Local Open Scope byte_scope.

Lemma read_timestamp_eq io :
  read_timestamp io
  = match convert_pg_ts (convert_bytes_to_int (firstn 8 (remaining io))) with
    | Ok ts => Ok (ts, seek io (Nat.min 8 (length (remaining io))))
    | Raise e => Raise e
    | OutOfFuel => OutOfFuel
    end.
Proof.
  unfold read_timestamp. erewrite bind_ok by apply read_int64_eq.
  unfold lift. destruct (convert_pg_ts _); reflexivity.
Qed.

Lemma Begin_new_eq rest :
  Begin.new ("B" :: rest)
  = outcome_map
      (fun ts =>
         Begin.mk (lit "B") (convert_bytes_to_int (firstn 8 rest)) ts
                  (convert_bytes_to_int (firstn 8 (skipn 16 rest))))
      (convert_pg_ts (convert_bytes_to_int (firstn 8 (skipn 8 rest)))).
Proof.
  unfold Begin.new, __init__.
  erewrite bind_ok by (apply read_byte1; reflexivity).
  unfold Begin.decode_buffer.
  change (negb (str_eqb _ _)) with false. cbv iota.
  set (io1 := mkBytesIO ("B" :: rest) 1).
  assert (R1 : remaining io1 = rest) by reflexivity.
  erewrite bind_ok by apply read_int64_eq.
  set (io2 := seek io1 _).
  assert (R2 : remaining io2 = skipn 8 rest)
    by (subst io2; now rewrite remaining_seek_min, R1).
  unfold bind at 1. rewrite read_timestamp_eq, R1, R2.
  destruct (convert_pg_ts _) as [ts| |]; try reflexivity.
  set (io3 := seek io2 _).
  assert (R3 : remaining io3 = skipn 16 rest).
  { subst io3. rewrite <- R2 at 1.
    now rewrite remaining_seek_min, R2, skipn_skipn. }
  erewrite bind_ok by apply read_int64_eq.
  rewrite R3. reflexivity.
Qed.

Lemma Commit_new_eq rest :
  Commit.new ("C" :: rest)
  = outcome_map
      (fun ts =>
         Commit.mk (lit "C")
           (convert_bytes_to_int (firstn 1 rest))
           (convert_bytes_to_int (firstn 8 (skipn 1 rest)))
           (convert_bytes_to_int (firstn 8 (skipn 9 rest)))
           ts)
      (convert_pg_ts (convert_bytes_to_int (firstn 8 (skipn 17 rest)))).
Proof.
  unfold Commit.new, __init__.
  erewrite bind_ok by (apply read_byte1; reflexivity).
  unfold Commit.decode_buffer.
  change (negb (str_eqb _ _)) with false. cbv iota.
  set (io1 := mkBytesIO ("C" :: rest) 1).
  assert (R1 : remaining io1 = rest) by reflexivity.
  erewrite bind_ok by apply read_int8_eq.
  set (io2 := seek io1 _).
  assert (R2 : remaining io2 = skipn 1 rest)
    by (subst io2; now rewrite remaining_seek_min, R1).
  erewrite bind_ok by apply read_int64_eq.
  set (io3 := seek io2 _).
  assert (R3 : remaining io3 = skipn 9 rest)
    by (subst io3; now rewrite remaining_seek_min, R2, skipn_skipn).
  erewrite bind_ok by apply read_int64_eq.
  set (io4 := seek io3 _).
  assert (R4 : remaining io4 = skipn 17 rest)
    by (subst io4; now rewrite remaining_seek_min, R3, skipn_skipn).
  unfold bind at 1. rewrite read_timestamp_eq, R1, R2, R3, R4.
  destruct (convert_pg_ts _) as [ts| |]; reflexivity.
Qed.

Lemma starts_with tag buffer :
  slice 0 1 buffer = [tag] -> exists rest, buffer = tag :: rest.
Proof.
  destruct buffer as [|b rest]; [discriminate|].
  unfold slice. simpl. intros H. exists rest. congruence.
Qed.

(** The loop of Truncate reads one relation id per turn, four bytes
    further each time; at the end of the buffer it reads zeros. *)
Lemma repeat_read_relation_id count :
  forall acc io,
  exists io',
    repeat_M count Truncate.read_relation_id acc io
    = Ok (acc ++ map (fun i => convert_bytes_to_int
                                 (firstn 4 (skipn (4 * i) (remaining io))))
                     (seq 0 count),
          io').
Proof.
  induction count as [|count IH]; intros acc io.
  - exists io. simpl. now rewrite app_nil_r.
  - cbn [repeat_M]. unfold Truncate.read_relation_id at 1.
    erewrite bind_ok
      by (erewrite bind_ok by apply read_int32_eq; reflexivity).
    set (io1 := seek io _).
    assert (R1 : remaining io1 = skipn 4 (remaining io))
      by (subst io1; apply remaining_seek_min).
    destruct (IH (acc ++ [convert_bytes_to_int (firstn 4 (remaining io))])
                 io1) as [io' ->].
    exists io'. f_equal. f_equal. rewrite <- app_assoc. f_equal.
    cbn [seq map app]. f_equal.
    rewrite <- seq_shift, map_map. apply map_ext. intros i.
    rewrite R1, skipn_skipn. do 3 f_equal. lia.
Qed.

End FixedLayout.

Local Open Scope byte_scope.

(** X8: a buffer that starts with ['C'] decodes, as a Commit, to the signed
    integers at bytes 1 ([flags]), 2 to 9 ([lsn_commit]) and 10 to 17
    ([lsn]) and to 2000-01-01T00:00:00 UTC plus the microseconds at bytes
    18 to 25; the only failure is a timestamp outside [datetime]'s range. *)
Theorem Commit_fields (buffer : list byte) :
  slice 0 1 buffer = ["C"] ->
  Commit.new buffer
  = outcome_map
      (fun ts =>
         Commit.mk (lit "C")
           (convert_bytes_to_int (slice 1 2 buffer))
           (convert_bytes_to_int (slice 2 10 buffer))
           (convert_bytes_to_int (slice 10 18 buffer))
           ts)
      (convert_pg_ts (convert_bytes_to_int (slice 18 26 buffer))).
Proof.
  intros H. apply starts_with in H as [rest ->].
  apply Commit_new_eq.
Qed.

Lemma Commit_fields_witness :
  Commit.new ["C"; x00;
              x00; x00; x00; x00; x00; x00; x01; x00;
              x00; x00; x00; x00; x00; x00; x01; x30;
              x00; x00; x00; x00; x00; x00; x00; x05]
  = Ok (Commit.mk (lit "C") 0 256 304
          (mkDatetime (micros (datetime_jan1 2000) + 5))).
Proof.
  apply (Commit_fields
           ["C"; x00;
            x00; x00; x00; x00; x00; x00; x01; x00;
            x00; x00; x00; x00; x00; x00; x01; x30;
            x00; x00; x00; x00; x00; x00; x00; x05]).
  reflexivity.
Defined.

(** X9: a Begin buffer whose commit timestamp lies before year 1 or after
    year 9999 makes the constructor fail with the overflow error of
    [datetime + timedelta]; no Begin with a wrapped date is returned. *)
Theorem Begin_timestamp_overflow (buffer : list byte) :
  slice 0 1 buffer = ["B"] ->
  let us := convert_bytes_to_int (slice 9 17 buffer) in
  us < - (730119 * micros_per_day)
  \/ (3652059 - 730119) * micros_per_day <= us ->
  Begin.new buffer = Raise DateValueOutOfRange.
Proof.
  intros H us Hus. apply starts_with in H as [rest ->]. subst us.
  rewrite Begin_new_eq.
  change (slice 9 17 ("B" :: rest)) with (firstn 8 (skipn 8 rest)) in Hus.
  unfold convert_pg_ts, datetime_add.
  rewrite pg_epoch_ordinal.
  pose proof datetime_max_ordinal as Hmax.
  destruct (Z.leb_spec 0 (730119 * micros_per_day
               + convert_bytes_to_int (firstn 8 (skipn 8 rest))));
    [|reflexivity].
  destruct (Z.leb_spec (730119 * micros_per_day
               + convert_bytes_to_int (firstn 8 (skipn 8 rest)))
               datetime_max_micros); [|reflexivity].
  exfalso. unfold micros_per_day in *. lia.
Qed.

Lemma Begin_timestamp_overflow_witness :
  Begin.new ["B"; x00; x00; x00; x00; x00; x00; x00; x64;
             x80; x00; x00; x00; x00; x00; x00; x00;
             x00; x00; x02; x2b]
  = Raise DateValueOutOfRange.
Proof.
  apply (Begin_timestamp_overflow
           ["B"; x00; x00; x00; x00; x00; x00; x00; x64;
            x80; x00; x00; x00; x00; x00; x00; x00;
            x00; x00; x02; x2b]).
  - reflexivity.
  - left. reflexivity.
Defined.

(** X10: a buffer that starts with ['T'] always decodes as a Truncate:
    [number_of_relations] is the signed integer at bytes 1 to 4,
    [option_bits] the signed byte 5, and [relation_ids] has one entry for
    each of the announced relations (none when the count is negative),
    entry [i] being the signed integer of bytes [6 + 4i] to [9 + 4i] as
    far as the buffer has them, and 0 when it has none of them. *)
Theorem Truncate_decodes (buffer : list byte) :
  slice 0 1 buffer = ["T"] ->
  let n := convert_bytes_to_int (slice 1 5 buffer) in
  Truncate.new buffer
  = Ok (Truncate.mk (lit "T") n
          (convert_bytes_to_int (slice 5 6 buffer))
          (map (fun i => convert_bytes_to_int
                           (slice (6 + 4 * i) (10 + 4 * i) buffer))
               (seq 0 (Z.to_nat n)))).
Proof.
  intros H n. apply starts_with in H as [rest ->]. subst n.
  unfold Truncate.new, __init__.
  erewrite bind_ok by (apply read_byte1; reflexivity).
  unfold Truncate.decode_buffer.
  change (negb (str_eqb _ _)) with false. cbv iota.
  set (io1 := mkBytesIO ("T" :: rest) 1).
  assert (R1 : remaining io1 = rest) by reflexivity.
  erewrite bind_ok by apply read_int32_eq.
  set (io2 := seek io1 _).
  assert (R2 : remaining io2 = skipn 4 rest)
    by (subst io2; now rewrite remaining_seek_min, R1).
  erewrite bind_ok by apply read_int8_eq.
  set (io3 := seek io2 _).
  assert (R3 : remaining io3 = skipn 5 rest)
    by (subst io3; now rewrite remaining_seek_min, R2, skipn_skipn).
  unfold for_range.
  destruct (repeat_read_relation_id
              (Z.to_nat (convert_bytes_to_int (firstn 4 (remaining io1))))
              [] io3) as [io' Hloop].
  erewrite bind_ok by exact Hloop.
  rewrite R1, R2, R3. unfold ret, slice.
  change (skipn 1 ("T" :: rest)) with rest.
  change (skipn 5 ("T" :: rest)) with (skipn 4 rest).
  change (5 - 1)%nat with 4%nat. change (6 - 5)%nat with 1%nat.
  do 2 f_equal. cbn [app]. apply map_ext. intros i.
  replace (10 + 4 * i - (6 + 4 * i))%nat with 4%nat by lia.
  change (skipn (6 + 4 * i) ("T" :: rest)) with (skipn (5 + 4 * i) rest).
  rewrite skipn_skipn. do 3 f_equal. lia.
Qed.

Lemma Truncate_decodes_witness :
  Truncate.new ["T"; x00; x00; x00; x03; x01;
                x00; x00; x40; x01; x00; x00; x40; x02; xff]
  = Ok (Truncate.mk (lit "T") 3 1 [16385; 16386; -1]).
Proof.
  apply (Truncate_decodes
           ["T"; x00; x00; x00; x03; x01;
            x00; x00; x40; x01; x00; x00; x40; x02; xff]).
  reflexivity.
Defined.

Local Close Scope byte_scope.

(** ** Relation on a well-formed buffer *)

Section RelationReader.

Local Open Scope byte_scope.

Lemma read_int_exact w bs rest io :
  remaining io = bs ++ rest ->
  w = Z.of_nat (length bs) ->
  (x <- read w ;; ret (convert_bytes_to_int x)) io
  = Ok (convert_bytes_to_int bs, seek io (length bs)).
Proof.
  intros R ->. erewrite bind_ok by (apply (read_exact _ _ _ R)). reflexivity.
Qed.

Lemma read_string_exact fuel io nm rest s :
  remaining io = nm ++ x00 :: rest ->
  ~ In x00 nm ->
  utf8_decode nm = Some s ->
  (length nm < fuel)%nat ->
  read_string fuel io = Ok (s, seek io (S (length nm))).
Proof.
  intros R Hz D Hf. rewrite (read_string_terminated _ _ _ _ R Hz Hf).
  unfold lift, convert_bytes_to_utf8. now rewrite D.
Qed.

Lemma remaining_seek_cons io b rest :
  remaining io = b :: rest -> remaining (seek io 1) = rest.
Proof. intros R. now rewrite remaining_seek, R. Qed.

Lemma remaining_seek_string io nm rest :
  remaining io = nm ++ x00 :: rest ->
  remaining (seek io (S (length nm))) = rest.
Proof.
  intros R. rewrite remaining_seek, R.
  change (S (length nm)) with (1 + length nm)%nat.
  rewrite <- skipn_skipn, skipn_app, skipn_all, Nat.sub_diag.
  reflexivity.
Qed.

Lemma read_column_type_wire fuel io seg col rest acc :
  column_type_wire seg col ->
  remaining io = seg ++ rest ->
  (length seg <= fuel)%nat ->
  Relation.read_column_type fuel acc io
  = Ok (acc ++ [col], seek io (length seg)).
Proof.
  intros W R Hf. destruct W as [flag nm type4 mod4 s Hz D Ht Hm].
  cbn [app] in R. rewrite <- !app_assoc in R. cbn [app] in R.
  rewrite <- app_assoc in R.
  simpl length in Hf. rewrite !length_app in Hf. simpl length in Hf.
  unfold Relation.read_column_type.
  erewrite bind_ok
    by (apply (read_int_exact _ [flag] _ _ R); reflexivity).
  pose proof (remaining_seek_cons _ _ _ R) as R1.
  erewrite bind_ok
    by (apply (read_string_exact fuel _ nm _ s R1 Hz D); lia).
  pose proof (remaining_seek_string _ _ _ R1) as R2.
  erewrite bind_ok
    by (apply (read_int_exact _ type4 _ _ R2); now rewrite Ht).
  pose proof (remaining_seek_app _ _ _ R2) as R3.
  erewrite bind_ok
    by (apply (read_int_exact _ mod4 _ _ R3); now rewrite Hm).
  unfold ret. rewrite !seek_seek. do 3 f_equal.
  simpl length. rewrite !length_app. simpl length. rewrite length_app. lia.
Qed.

Lemma length_concat_In {A} (l : list A) ls :
  In l ls -> (length l <= length (concat ls))%nat.
Proof.
  induction ls as [|x ls IH]; intros H; [contradiction|].
  simpl. rewrite length_app. destruct H as [->|H]; [lia|].
  specialize (IH H). lia.
Qed.

Lemma repeat_read_column_type_wire fuel segs cols :
  Forall2 column_type_wire segs cols ->
  forall io rest acc,
    remaining io = concat segs ++ rest ->
    (length (concat segs) <= fuel)%nat ->
    repeat_M (length segs) (Relation.read_column_type fuel) acc io
    = Ok (acc ++ cols, seek io (length (concat segs))).
Proof.
  induction 1 as [|seg col segs cols W F IH]; intros io rest acc R Hf.
  - simpl. unfold ret. now rewrite app_nil_r, seek_0.
  - simpl in R. rewrite <- app_assoc in R.
    simpl concat in Hf. rewrite length_app in Hf.
    cbn [length repeat_M].
    erewrite bind_ok
      by (apply (read_column_type_wire _ _ _ _ _ _ W R); lia).
    rewrite (IH _ rest).
    + rewrite <- app_assoc, seek_seek. simpl concat.
      now rewrite length_app.
    + apply remaining_seek_app. exact R.
    + lia.
Qed.

End RelationReader.

Local Open Scope byte_scope.

(** X11: a Relation buffer made of the tag, a four-byte relation id, two
    zero-terminated UTF-8 names, one 7-bit replica-identity byte, a
    two-byte count [k >= 0] and [k] complete column descriptions decodes,
    given fuel for as many loop turns as the buffer has bytes, to these
    fields and to the [k] columns, flag, name, type id and type modifier,
    in the order of the wire. *)
Theorem Relation_well_formed
  (fuel : nat) (rid4 ns nm count2 rest : list byte) (ident : byte)
  (segs : list (list byte)) (cols : list ColumnType) (ns_s nm_s : str) :
  length rid4 = 4%nat ->
  ~ In x00 ns -> utf8_decode ns = Some ns_s ->
  ~ In x00 nm -> utf8_decode nm = Some nm_s ->
  byte_to_Z ident < 128 ->
  length count2 = 2%nat ->
  convert_bytes_to_int count2 = Z.of_nat (length segs) ->
  Forall2 column_type_wire segs cols ->
  let buffer :=
    "R" :: rid4 ++ ns ++ x00 :: nm ++ x00 :: ident :: count2
        ++ concat segs ++ rest in
  (length buffer <= fuel)%nat ->
  Relation.new fuel buffer
  = Ok (Relation.mk (lit "R") (convert_bytes_to_int rid4) ns_s nm_s
          [byte_to_Z ident] (Z.of_nat (length segs)) cols).
Proof.
  intros Hrid Hzns Dns Hznm Dnm Hid Hc Hk W buffer Hf. subst buffer.
  simpl length in Hf. rewrite !length_app in Hf. simpl length in Hf.
  rewrite !length_app in Hf. simpl length in Hf. rewrite !length_app in Hf.
  unfold Relation.new, __init__.
  erewrite bind_ok by (apply read_byte1; reflexivity).
  unfold Relation.decode_buffer.
  change (negb (str_eqb _ _)) with false. cbv iota.
  erewrite bind_ok by (apply read_relation_id; exact Hrid).
  set (io0 := mkBytesIO _ 5).
  assert (R0 : remaining io0
               = ns ++ x00 :: nm ++ x00 :: ident :: count2
                    ++ concat segs ++ rest)
    by (apply remaining_at_5; exact Hrid).
  erewrite bind_ok
    by (apply (read_string_exact fuel _ ns _ ns_s R0 Hzns Dns); lia).
  pose proof (remaining_seek_string _ _ _ R0) as R1.
  erewrite bind_ok
    by (apply (read_string_exact fuel _ nm _ nm_s R1 Hznm Dnm); lia).
  pose proof (remaining_seek_string _ _ _ R1) as R2.
  erewrite bind_ok
    by (rewrite (read_utf8_1_cons _ _ _ R2);
        destruct (Z.ltb_spec (byte_to_Z ident) 128); [reflexivity|lia]).
  pose proof (remaining_seek_cons _ _ _ R2) as R3.
  erewrite bind_ok
    by (apply (read_int_exact _ count2 _ _ R3); now rewrite Hc).
  pose proof (remaining_seek_app _ _ _ R3) as R4.
  rewrite Hk. unfold for_range. rewrite Nat2Z.id.
  erewrite bind_ok
    by (apply (repeat_read_column_type_wire fuel segs cols W _ rest _ R4);
        lia).
  reflexivity.
Qed.

Lemma Relation_well_formed_witness :
  Relation.new 40
    ["R"; x00; x00; x40; x01; "p"; "u"; "b"; x00; "t"; x00; "d"; x00; x02;
     x01; "i"; "d"; x00; x00; x00; x00; x17; xff; xff; xff; xff;
     x00; "v"; x00; x00; x00; x00; x19; xff; xff; xff; xff]
  = Ok (Relation.mk (lit "R") 16385 (lit "pub") (lit "t") (lit "d") 2
          [mkColumnType 1 (lit "id") 23 (-1);
           mkColumnType 0 (lit "v") 25 (-1)]).
Proof.
  apply (Relation_well_formed 40 [x00; x00; x40; x01] ["p"; "u"; "b"] ["t"]
           [x00; x02] [] "d"
           [x01 :: ["i"; "d"] ++ x00 :: [x00; x00; x00; x17]
                ++ [xff; xff; xff; xff];
            x00 :: ["v"] ++ x00 :: [x00; x00; x00; x19]
                ++ [xff; xff; xff; xff]]
           _ (lit "pub") (lit "t")).
  - reflexivity.
  - simpl. intros H. repeat destruct H as [H|H]; try discriminate H; exact H.
  - reflexivity.
  - simpl. intros H. repeat destruct H as [H|H]; try discriminate H; exact H.
  - reflexivity.
  - reflexivity.
  - reflexivity.
  - reflexivity.
  - constructor; [|constructor; [|constructor]].
    + apply (wire_column_type x01 ["i"; "d"] [x00; x00; x00; x17]
               [xff; xff; xff; xff] (lit "id")); try reflexivity.
      simpl. intros H. repeat destruct H as [H|H]; try discriminate H;
        exact H.
    + apply (wire_column_type x00 ["v"] [x00; x00; x00; x19]
               [xff; xff; xff; xff] (lit "v")); try reflexivity.
      simpl. intros H. repeat destruct H as [H|H]; try discriminate H;
        exact H.
  - simpl. lia.
Defined.

Local Close Scope byte_scope.

(** ** What a successfully decoded message tells about the buffer *)

Section Inversion.

Local Open Scope byte_scope.

Lemma init_ok_inv {A} (decode_buffer : str -> M A) buffer self :
  __init__ decode_buffer buffer = Ok self ->
  exists byte1 io1 io',
    read_utf8 1 (open buffer) = Ok (byte1, io1)
    /\ decode_buffer byte1 io1 = Ok (self, io').
Proof.
  unfold __init__.
  destruct (bind _ _ _) as [[self' io']| |] eqn:E; try discriminate.
  intros H. inversion H; subst.
  apply bind_ok_inv in E as (byte1 & io1 & H1 & H2).
  now exists byte1, io1, io'.
Qed.

Lemma read_byte1_inv buffer c io1 :
  read_utf8 1 (open buffer) = Ok ([byte_to_Z c], io1) ->
  exists rest, buffer = c :: rest /\ io1 = mkBytesIO buffer 1.
Proof.
  destruct buffer as [|b rest]; intros H.
  - rewrite read_utf8_1_eof in H by reflexivity. discriminate.
  - rewrite (read_utf8_1_cons _ b rest) in H by reflexivity.
    destruct (byte_to_Z b <? 128); [|discriminate].
    inversion H. exists rest. split; [|reflexivity].
    f_equal. now apply byte_to_Z_inj.
Qed.

(** The tag check at the head of every [decode_buffer]. *)
Lemma tag_check {A} (byte1 : str) (c : byte) (e : DecodeError) (m : M A) io r :
  (if negb (str_eqb byte1 [byte_to_Z c]) then raise e else m) io = Ok r ->
  byte1 = [byte_to_Z c] /\ m io = Ok r.
Proof.
  destruct (str_eqb byte1 _) eqn:E; cbn [negb]; [|discriminate].
  intros H. split; [now apply str_eqb_eq|exact H].
Qed.

Ltac bind_inv H :=
  repeat (let a := fresh "a" in
          let io := fresh "io" in
          let H1 := fresh "H" in
          apply bind_ok_inv in H as (a & io & H1 & H)).

Lemma Begin_ok_inv buffer m :
  Begin.new buffer = Ok m ->
  exists rest, buffer = "B" :: rest /\ Begin.byte1 m = lit "B".
Proof.
  intros H. apply init_ok_inv in H as (byte1 & io1 & io' & H1 & H2).
  unfold Begin.decode_buffer in H2.
  change (lit "B") with [byte_to_Z "B"] in H2 at 1.
  apply tag_check in H2 as [-> H2].
  apply read_byte1_inv in H1 as (rest & -> & _). exists rest.
  bind_inv H2. inversion H2. now split.
Qed.

Lemma Commit_ok_inv buffer m :
  Commit.new buffer = Ok m ->
  exists rest, buffer = "C" :: rest /\ Commit.byte1 m = lit "C".
Proof.
  intros H. apply init_ok_inv in H as (byte1 & io1 & io' & H1 & H2).
  unfold Commit.decode_buffer in H2.
  change (lit "C") with [byte_to_Z "C"] in H2 at 1.
  apply tag_check in H2 as [-> H2].
  apply read_byte1_inv in H1 as (rest & -> & _). exists rest.
  bind_inv H2. inversion H2. now split.
Qed.

Lemma Relation_ok_inv fuel buffer m :
  Relation.new fuel buffer = Ok m ->
  exists rest, buffer = "R" :: rest /\ Relation.byte1 m = lit "R".
Proof.
  intros H. apply init_ok_inv in H as (byte1 & io1 & io' & H1 & H2).
  unfold Relation.decode_buffer in H2.
  change (lit "R") with [byte_to_Z "R"] in H2 at 1.
  apply tag_check in H2 as [-> H2].
  apply read_byte1_inv in H1 as (rest & -> & _). exists rest.
  bind_inv H2. inversion H2. now split.
Qed.

Lemma Insert_ok_inv buffer m :
  Insert.new buffer = Ok m ->
  exists rest,
    buffer = "I" :: rest /\ Insert.byte1 m = lit "I"
    /\ Insert.relation_id m = convert_bytes_to_int (firstn 4 rest).
Proof.
  intros H. apply init_ok_inv in H as (byte1 & io1 & io' & H1 & H2).
  unfold Insert.decode_buffer in H2.
  change (lit "I") with [byte_to_Z "I"] in H2 at 1.
  apply tag_check in H2 as [-> H2].
  apply read_byte1_inv in H1 as (rest & -> & ->). exists rest.
  bind_inv H2. inversion H2. rewrite read_int32_eq in H. inversion H.
  now repeat split.
Qed.

Lemma Delete_ok_inv buffer m :
  Delete.new buffer = Ok m ->
  exists rest,
    buffer = "D" :: rest /\ Delete.byte1 m = lit "D"
    /\ Delete.relation_id m = convert_bytes_to_int (firstn 4 rest)
    /\ (Delete.message_type m = lit "K" \/ Delete.message_type m = lit "O").
Proof.
  intros H. apply init_ok_inv in H as (byte1 & io1 & io' & H1 & H2).
  unfold Delete.decode_buffer in H2.
  change (lit "D") with [byte_to_Z "D"] in H2 at 1.
  apply tag_check in H2 as [-> H2].
  apply read_byte1_inv in H1 as (rest & -> & ->). exists rest.
  bind_inv H2.
  destruct (str_in a0 _) eqn:E; cbn [negb] in H2; [|discriminate].
  bind_inv H2. inversion H2. rewrite read_int32_eq in H. inversion H.
  repeat split. cbn [Delete.message_type].
  unfold str_in, existsb in E. rewrite orb_false_r in E.
  apply orb_true_iff in E as [E|E]; apply str_eqb_eq in E; auto.
Qed.

Lemma Truncate_ok_inv buffer m :
  Truncate.new buffer = Ok m ->
  exists rest, buffer = "T" :: rest /\ Truncate.byte1 m = lit "T".
Proof.
  intros H. apply init_ok_inv in H as (byte1 & io1 & io' & H1 & H2).
  unfold Truncate.decode_buffer in H2.
  change (lit "T") with [byte_to_Z "T"] in H2 at 1.
  apply tag_check in H2 as [-> H2].
  apply read_byte1_inv in H1 as (rest & -> & _). exists rest.
  bind_inv H2. inversion H2. now split.
Qed.

Lemma Update_ok_inv buffer m :
  Update.new buffer = Ok m ->
  exists rest,
    buffer = "U" :: rest /\ Update.byte1 m = lit "U"
    /\ Update.relation_id m = convert_bytes_to_int (firstn 4 rest)
    /\ Update.new_tuple_byte m = lit "N"
    /\ ((Update.next_byte_identifier m = lit "N"
         /\ Update.optional_tuple_identifier m = None
         /\ Update.old_tuple m = None)
        \/ ((Update.next_byte_identifier m = lit "K"
             \/ Update.next_byte_identifier m = lit "O")
            /\ Update.optional_tuple_identifier m
               = Some (Update.next_byte_identifier m)
            /\ exists old, Update.old_tuple m = Some old)).
Proof.
  intros H. apply init_ok_inv in H as (byte1 & io1 & io' & H1 & H2).
  unfold Update.decode_buffer in H2.
  change (lit "U") with [byte_to_Z "U"] in H2 at 1.
  apply tag_check in H2 as [-> H2].
  apply read_byte1_inv in H1 as (rest & -> & ->). exists rest.
  apply bind_ok_inv in H2 as (rid & io2 & Hrid & H2).
  apply bind_ok_inv in H2 as (nbi & io3 & Hnbi & H2).
  apply bind_ok_inv in H2 as ([[oti old] ntb] & io4 & Hbranch & H2).
  destruct (str_eqb ntb (lit "N")) eqn:EN; cbn [negb] in H2.
  2:{ apply bind_ok_inv in H2 as (pos & io5 & _ & H2). discriminate. }
  apply str_eqb_eq in EN. subst ntb.
  apply bind_ok_inv in H2 as (new & io5 & _ & H2). inversion H2; subst m.
  cbn [Update.byte1 Update.relation_id Update.new_tuple_byte
       Update.next_byte_identifier Update.optional_tuple_identifier
       Update.old_tuple].
  rewrite read_int32_eq in Hrid. inversion Hrid.
  do 4 (split; [reflexivity|]).
  destruct (str_eqb nbi (lit "K") || str_eqb nbi (lit "O")) eqn:EK.
  - right. apply bind_ok_inv in Hbranch as (old' & io6 & _ & Hbranch).
    apply bind_ok_inv in Hbranch as (ntb' & io7 & _ & Hbranch).
    inversion Hbranch; subst.
    apply orb_true_iff in EK as [E|E]; apply str_eqb_eq in E;
      (split; [auto|split; [reflexivity|now exists old']]).
  - left. inversion Hbranch; subst. now repeat split.
Qed.

End Inversion.

Local Open Scope byte_scope.

(** X12: a ['t'] column whose declared length is negative takes all that
    is left of the buffer as its value, and keeps the negative length. *)
Theorem text_column_negative_length
  (io : BytesIO) (len4 payload : list byte) (s : str)
  (acc : list ColumnData) :
  remaining io = "t" :: len4 ++ payload ->
  length len4 = 4%nat ->
  convert_bytes_to_int len4 < 0 ->
  utf8_decode payload = Some s ->
  read_column acc io
  = Ok (acc ++ [mkColumnData (Some (lit "t"))
                  (Some (convert_bytes_to_int len4)) (Some s)],
        exhausted io).
Proof.
  intros R Hl Hneg D. unfold read_column.
  erewrite bind_ok by (rewrite (read_utf8_1_cons _ _ _ R); reflexivity).
  change (str_in _ _) with false. change (str_eqb _ _) with true. cbv iota.
  pose proof (remaining_seek_cons _ _ _ R) as R1.
  erewrite bind_ok
    by (apply (read_int_exact _ len4 _ _ R1); now rewrite Hl).
  pose proof (remaining_seek_app _ _ _ R1) as R2.
  erewrite bind_ok.
  2:{ unfold read_utf8.
      erewrite bind_ok by (apply read_negative; exact Hneg).
      rewrite R2. unfold lift, convert_bytes_to_utf8. rewrite D.
      reflexivity. }
  unfold ret, exhausted. rewrite R2, R, !seek_seek. do 3 f_equal.
  simpl length. rewrite length_app. lia.
Qed.

Lemma text_column_negative_length_witness :
  read_column [] (mkBytesIO [x00; x01; "t"; xff; xff; xff; xff; "a"; "b"] 2)
  = Ok ([mkColumnData (Some (lit "t")) (Some (-1)%Z) (Some (lit "ab"))],
        exhausted
          (mkBytesIO [x00; x01; "t"; xff; xff; xff; xff; "a"; "b"] 2)).
Proof.
  apply (text_column_negative_length
           (mkBytesIO [x00; x01; "t"; xff; xff; xff; xff; "a"; "b"] 2)
           [xff; xff; xff; xff] ["a"; "b"] (lit "ab") []);
    reflexivity.
Defined.

(** X13: the relation id of a decoded Insert, Update or Delete is the
    signed 32-bit reading of the bytes behind the tag, between [-2^31] and
    [2^31 - 1]: an id of [2^31] or more on the wire comes out negative. *)
Theorem relation_id_is_signed_32 (buffer : list byte) :
  (forall m, Insert.new buffer = Ok m ->
             - 2 ^ 31 <= Insert.relation_id m < 2 ^ 31)
  /\ (forall m, Update.new buffer = Ok m ->
                - 2 ^ 31 <= Update.relation_id m < 2 ^ 31)
  /\ (forall m, Delete.new buffer = Ok m ->
                - 2 ^ 31 <= Delete.relation_id m < 2 ^ 31).
Proof.
  pose proof (fun bs => convert_firstn_signed_range 4 bs ltac:(lia)) as R.
  unfold signed_range in R. change (8 * Z.of_nat 4 - 1) with 31 in R.
  split; [|split]; intros m H.
  - apply Insert_ok_inv in H as (rest & _ & _ & ->). apply R.
  - apply Update_ok_inv in H as (rest & _ & _ & -> & _). apply R.
  - apply Delete_ok_inv in H as (rest & _ & _ & -> & _). apply R.
Qed.

(** X14: every decoded Update has ['N'] as its [new_tuple_byte], and
    either the byte behind the relation id was ['N'] and there is neither
    identifier kind nor old tuple, or that byte was ['K'] or ['O'], it is
    the identifier kind, and there is an old tuple. *)
Theorem Update_result_shape (buffer : list byte) (m : Update.t) :
  Update.new buffer = Ok m ->
  Update.new_tuple_byte m = lit "N"
  /\ ((Update.next_byte_identifier m = lit "N"
       /\ Update.optional_tuple_identifier m = None
       /\ Update.old_tuple m = None)
      \/ ((Update.next_byte_identifier m = lit "K"
           \/ Update.next_byte_identifier m = lit "O")
          /\ Update.optional_tuple_identifier m
             = Some (Update.next_byte_identifier m)
          /\ exists old, Update.old_tuple m = Some old)).
Proof.
  intros H. apply Update_ok_inv in H as (rest & _ & _ & _ & HN & Hshape).
  now split.
Qed.

Lemma Update_result_shape_witness :
  let m := Update.mk (lit "U") 1 (lit "O") (Some (lit "O"))
             (Some (mkTupleData 0 [])) (lit "N") (mkTupleData 0 []) in
  Update.new_tuple_byte m = lit "N"
  /\ ((Update.next_byte_identifier m = lit "N"
       /\ Update.optional_tuple_identifier m = None
       /\ Update.old_tuple m = None)
      \/ ((Update.next_byte_identifier m = lit "K"
           \/ Update.next_byte_identifier m = lit "O")
          /\ Update.optional_tuple_identifier m
             = Some (Update.next_byte_identifier m)
          /\ exists old, Update.old_tuple m = Some old)).
Proof.
  apply (Update_result_shape
           ["U"; x00; x00; x00; x01; "O"; x00; x00; "N"; x00; x00]).
  reflexivity.
Defined.

(** X15: a constructor returns a message only for a buffer that starts
    with the tag of its class, and the message carries that tag in
    [byte1]. *)
Theorem message_starts_with_its_tag (fuel : nat) (buffer : list byte) :
  (forall m, Begin.new buffer = Ok m ->
     exists rest, buffer = "B" :: rest /\ Begin.byte1 m = lit "B")
  /\ (forall m, Commit.new buffer = Ok m ->
        exists rest, buffer = "C" :: rest /\ Commit.byte1 m = lit "C")
  /\ (forall m, Relation.new fuel buffer = Ok m ->
        exists rest, buffer = "R" :: rest /\ Relation.byte1 m = lit "R")
  /\ (forall m, Insert.new buffer = Ok m ->
        exists rest, buffer = "I" :: rest /\ Insert.byte1 m = lit "I")
  /\ (forall m, Update.new buffer = Ok m ->
        exists rest, buffer = "U" :: rest /\ Update.byte1 m = lit "U")
  /\ (forall m, Delete.new buffer = Ok m ->
        exists rest, buffer = "D" :: rest /\ Delete.byte1 m = lit "D")
  /\ (forall m, Truncate.new buffer = Ok m ->
        exists rest, buffer = "T" :: rest /\ Truncate.byte1 m = lit "T").
Proof.
  split; [|split; [|split; [|split; [|split; [|split]]]]]; intros m H.
  - now apply Begin_ok_inv.
  - now apply Commit_ok_inv.
  - now apply (Relation_ok_inv fuel).
  - apply Insert_ok_inv in H as (rest & ? & ? & _). now exists rest.
  - apply Update_ok_inv in H as (rest & ? & ? & _). now exists rest.
  - apply Delete_ok_inv in H as (rest & ? & ? & _). now exists rest.
  - now apply Truncate_ok_inv.
Qed.

(** X16: every decoded Delete has ['K'] or ['O'] as its [message_type]. *)
Theorem Delete_result_message_type (buffer : list byte) (m : Delete.t) :
  Delete.new buffer = Ok m ->
  Delete.message_type m = lit "K" \/ Delete.message_type m = lit "O".
Proof.
  intros H. now apply Delete_ok_inv in H as (rest & _ & _ & _ & H).
Qed.

Lemma Delete_result_message_type_witness :
  let m := Delete.mk (lit "D") 1 (lit "O") (mkTupleData 0 []) in
  Delete.message_type m = lit "K" \/ Delete.message_type m = lit "O".
Proof.
  apply (Delete_result_message_type ["D"; x00; x00; x00; x01; "O"; x00; x00]).
  reflexivity.
Defined.

Local Close Scope byte_scope.

(** ** Witnesses at concrete buffers *)

Local Open Scope byte_scope.

Lemma read_helpers_forward_only_witness :
  getvalue (mkBytesIO ["I"; x00; x00; x00; x07; "N"] 5)
  = getvalue (mkBytesIO ["I"; x00; x00; x00; x07; "N"] 1)
  /\ (1 <= 5)%nat
  /\ (5 <= Nat.max 1 6)%nat.
Proof.
  apply (proj1 (proj2 (proj2 read_helpers_forward_only))
           (mkBytesIO ["I"; x00; x00; x00; x07; "N"] 1) 7%Z
           (mkBytesIO ["I"; x00; x00; x00; x07; "N"] 5)).
  reflexivity.
Defined.

Lemma read_tuple_data_fails_only_on_encoding_witness :
  InvalidEncoding = InvalidEncoding.
Proof.
  apply (proj2 (read_tuple_data_fails_only_on_encoding
                  (open [x00; x01; xff]))).
  reflexivity.
Defined.

Lemma relation_id_is_signed_32_witness :
  - 2 ^ 31 <= -1 < 2 ^ 31.
Proof.
  apply (proj1 (relation_id_is_signed_32
                  ["I"; xff; xff; xff; xff; "N"; x00; x00])
           (Insert.mk (lit "I") (-1) (lit "N") (mkTupleData 0 []))).
  reflexivity.
Defined.

Lemma message_starts_with_its_tag_witness :
  exists rest,
    ["T"; x00; x00; x00; x00; x00] = "T" :: rest
    /\ Truncate.byte1 (Truncate.mk (lit "T") 0 0 []) = lit "T".
Proof.
  apply (proj2 (proj2 (proj2 (proj2 (proj2 (proj2
           (message_starts_with_its_tag 0
              ["T"; x00; x00; x00; x00; x00]))))))
           (Truncate.mk (lit "T") 0 0 [])).
  reflexivity.
Defined.

Local Close Scope byte_scope.

(** ** Text *)

Section Text.

Lemma utf8_decode_seven_bit bs :
  Forall (fun b => byte_to_Z b < 128) bs ->
  utf8_decode bs = Some (map byte_to_Z bs).
Proof.
  induction 1 as [|b bs Hb _ IH]; [reflexivity|].
  cbn [utf8_decode map].
  destruct (Z.ltb_spec (byte_to_Z b) 128); [|lia].
  now rewrite IH.
Qed.

End Text.

(** X17: bytes that are all below 0x80 always decode, each to the
    character of its own code. *)
Theorem convert_bytes_to_utf8_seven_bit (bs : list byte) :
  Forall (fun b => byte_to_Z b < 128) bs ->
  convert_bytes_to_utf8 bs = Ok (map byte_to_Z bs).
Proof.
  intros H. unfold convert_bytes_to_utf8.
  now rewrite utf8_decode_seven_bit.
Qed.

Lemma convert_bytes_to_utf8_seven_bit_witness :
  convert_bytes_to_utf8 [x69; x64] = Ok (lit "id").
Proof.
  apply (convert_bytes_to_utf8_seven_bit [x69; x64]).
  repeat constructor.
Defined.

(** ** Row changes on well-formed buffers *)

Section RowChanges.

Lemma read_tuple_data_wire io count2 segs cols rest :
  length count2 = 2%nat ->
  convert_bytes_to_int count2 = Z.of_nat (length segs) ->
  Forall2 column_wire segs cols ->
  remaining io = count2 ++ concat segs ++ rest ->
  read_tuple_data io
  = Ok (mkTupleData (Z.of_nat (length segs)) cols,
        seek io (length (count2 ++ concat segs))).
Proof.
  intros Hc Hk W R. unfold read_tuple_data.
  erewrite bind_ok
    by (apply (read_int_exact _ count2 _ _ R); now rewrite Hc).
  rewrite Hk. unfold for_range. rewrite Nat2Z.id.
  erewrite bind_ok.
  2:{ apply (repeat_read_column_wire segs cols W _ rest).
      apply remaining_seek_app. exact R. }
  unfold ret. now rewrite seek_seek, length_app.
Qed.

Lemma remaining_seek_tuple io count2 segs (rest : list byte) :
  remaining io = count2 ++ concat segs ++ rest ->
  remaining (seek io (length (count2 ++ concat segs))) = rest.
Proof.
  intros R. apply remaining_seek_app. now rewrite <- app_assoc.
Qed.

End RowChanges.

Local Open Scope byte_scope.

(** X18: an Update buffer made of the tag, a four-byte relation id, ['K']
    or ['O'], a well-formed tuple, ['N'] and a second well-formed tuple
    decodes to the relation id, that byte as identifier kind, the first
    tuple as old tuple and the second as new tuple; bytes behind the new
    tuple are not looked at. *)
Theorem Update_with_old_tuple
  (rid4 : list byte) (kind : byte)
  (count_old : list byte) (segs_old : list (list byte))
  (cols_old : list ColumnData)
  (count_new : list byte) (segs_new : list (list byte))
  (cols_new : list ColumnData) (rest : list byte) :
  length rid4 = 4%nat ->
  kind = "K" \/ kind = "O" ->
  length count_old = 2%nat ->
  convert_bytes_to_int count_old = Z.of_nat (length segs_old) ->
  Forall2 column_wire segs_old cols_old ->
  length count_new = 2%nat ->
  convert_bytes_to_int count_new = Z.of_nat (length segs_new) ->
  Forall2 column_wire segs_new cols_new ->
  Update.new ("U" :: rid4 ++ kind :: count_old ++ concat segs_old
                  ++ "N" :: count_new ++ concat segs_new ++ rest)
  = Ok (Update.mk (lit "U") (convert_bytes_to_int rid4)
          [byte_to_Z kind] (Some [byte_to_Z kind])
          (Some (mkTupleData (Z.of_nat (length segs_old)) cols_old))
          (lit "N")
          (mkTupleData (Z.of_nat (length segs_new)) cols_new)).
Proof.
  intros Hrid Hkind Hco Hko Wo Hcn Hkn Wn.
  unfold Update.new, __init__.
  erewrite bind_ok by (apply read_byte1; reflexivity).
  unfold Update.decode_buffer.
  change (negb (str_eqb [byte_to_Z "U"] (lit "U"))) with false. cbv iota.
  erewrite bind_ok by (apply read_relation_id; exact Hrid).
  set (io0 := mkBytesIO _ 5).
  assert (R0 : remaining io0
               = kind :: count_old ++ concat segs_old
                   ++ "N" :: count_new ++ concat segs_new ++ rest)
    by (apply remaining_at_5; exact Hrid).
  erewrite bind_ok
    by (rewrite (read_utf8_1_cons _ _ _ R0);
        destruct Hkind; subst kind; reflexivity).
  pose proof (remaining_seek_cons _ _ _ R0) as R1.
  replace (str_eqb [byte_to_Z kind] (lit "K")
           || str_eqb [byte_to_Z kind] (lit "O"))
    with true by (destruct Hkind; subst kind; reflexivity).
  pose proof (remaining_seek_tuple _ _ _ _ R1) as R2.
  erewrite bind_ok.
  2:{ erewrite bind_ok
        by (apply (read_tuple_data_wire _ _ _ _ _ Hco Hko Wo R1)).
      erewrite bind_ok
        by (rewrite (read_utf8_1_cons _ _ _ R2); reflexivity).
      reflexivity. }
  cbv beta iota.
  change (negb (str_eqb [byte_to_Z "N"] (lit "N"))) with false. cbv iota.
  pose proof (remaining_seek_cons _ _ _ R2) as R3.
  erewrite bind_ok
    by (apply (read_tuple_data_wire _ _ _ _ _ Hcn Hkn Wn R3)).
  reflexivity.
Qed.

Lemma Update_with_old_tuple_witness :
  Update.new ["U"; x00; x00; x40; x01; "K"; x00; x01;
              "t"; x00; x00; x00; x01; "7";
              "N"; x00; x02; "t"; x00; x00; x00; x01; "7"; "u"; xff]
  = Ok (Update.mk (lit "U") 16385 (lit "K") (Some (lit "K"))
          (Some (mkTupleData 1
                   [mkColumnData (Some (lit "t")) (Some 1%Z)
                                 (Some (lit "7"))]))
          (lit "N")
          (mkTupleData 2
             [mkColumnData (Some (lit "t")) (Some 1%Z) (Some (lit "7"));
              mkColumnData (Some (lit "u")) None None])).
Proof.
  apply (Update_with_old_tuple [x00; x00; x40; x01] "K"
           [x00; x01] ["t" :: [x00; x00; x00; x01] ++ ["7"]] _
           [x00; x02] ["t" :: [x00; x00; x00; x01] ++ ["7"]; ["u"]] _
           [xff]);
    try reflexivity.
  - now left.
  - constructor; [|constructor].
    apply (wire_text [x00; x00; x00; x01] ["7"] (lit "7")); reflexivity.
  - constructor; [|constructor; [|constructor]].
    + apply (wire_text [x00; x00; x00; x01] ["7"] (lit "7")); reflexivity.
    + constructor.
Defined.

(** X19: an Insert buffer made of the tag, a four-byte relation id, a
    7-bit marker byte and a well-formed tuple decodes to that relation id,
    marker and tuple; a Delete buffer of the same layout with ['K'] or
    ['O'] as the marker decodes to a Delete with that tuple as old
    tuple. *)
Theorem Insert_and_Delete_with_tuple
  (rid4 : list byte) (marker : byte) (count2 : list byte)
  (segs : list (list byte)) (cols : list ColumnData) (rest : list byte) :
  length rid4 = 4%nat ->
  length count2 = 2%nat ->
  convert_bytes_to_int count2 = Z.of_nat (length segs) ->
  Forall2 column_wire segs cols ->
  let body := rid4 ++ marker :: count2 ++ concat segs ++ rest in
  let tuple := mkTupleData (Z.of_nat (length segs)) cols in
  (byte_to_Z marker < 128 ->
   Insert.new ("I" :: body)
   = Ok (Insert.mk (lit "I") (convert_bytes_to_int rid4) [byte_to_Z marker]
           tuple))
  /\ (marker = "K" \/ marker = "O" ->
      Delete.new ("D" :: body)
      = Ok (Delete.mk (lit "D") (convert_bytes_to_int rid4)
              [byte_to_Z marker] tuple)).
Proof.
  intros Hrid Hc Hk W body tuple. subst body tuple. split.
  - intros Hm. unfold Insert.new, __init__.
    erewrite bind_ok by (apply read_byte1; reflexivity).
    unfold Insert.decode_buffer.
    change (negb (str_eqb _ _)) with false. cbv iota.
    erewrite bind_ok by (apply read_relation_id; exact Hrid).
    set (io0 := mkBytesIO _ 5).
    assert (R0 : remaining io0 = marker :: count2 ++ concat segs ++ rest)
      by (apply remaining_at_5; exact Hrid).
    erewrite bind_ok
      by (rewrite (read_utf8_1_cons _ _ _ R0);
          destruct (Z.ltb_spec (byte_to_Z marker) 128); [reflexivity|lia]).
    pose proof (remaining_seek_cons _ _ _ R0) as R1.
    erewrite bind_ok by (apply (read_tuple_data_wire _ _ _ _ _ Hc Hk W R1)).
    reflexivity.
  - intros Hm. unfold Delete.new, __init__.
    erewrite bind_ok by (apply read_byte1; reflexivity).
    unfold Delete.decode_buffer.
    change (negb (str_eqb _ _)) with false. cbv iota.
    erewrite bind_ok by (apply read_relation_id; exact Hrid).
    set (io0 := mkBytesIO _ 5).
    assert (R0 : remaining io0 = marker :: count2 ++ concat segs ++ rest)
      by (apply remaining_at_5; exact Hrid).
    erewrite bind_ok
      by (rewrite (read_utf8_1_cons _ _ _ R0);
          destruct Hm; subst marker; reflexivity).
    replace (negb (str_in [byte_to_Z marker] [lit "K"; lit "O"]))
      with false by (destruct Hm; subst marker; reflexivity).
    pose proof (remaining_seek_cons _ _ _ R0) as R1.
    erewrite bind_ok by (apply (read_tuple_data_wire _ _ _ _ _ Hc Hk W R1)).
    reflexivity.
Qed.

Lemma Insert_and_Delete_with_tuple_witness :
  Insert.new ["I"; x00; x00; x40; x01; "N"; x00; x02; "n";
              "t"; x00; x00; x00; x02; "h"; "i"]
  = Ok (Insert.mk (lit "I") 16385 (lit "N")
          (mkTupleData 2
             [mkColumnData (Some (lit "n")) None None;
              mkColumnData (Some (lit "t")) (Some 2%Z) (Some (lit "hi"))])).
Proof.
  apply (proj1 (Insert_and_Delete_with_tuple [x00; x00; x40; x01] "N"
                  [x00; x02]
                  [["n"]; "t" :: [x00; x00; x00; x02] ++ ["h"; "i"]] _ []
                  eq_refl eq_refl eq_refl
                  (Forall2_cons _ _ wire_null
                     (Forall2_cons _ _
                        (wire_text [x00; x00; x00; x02] ["h"; "i"] (lit "hi")
                           eq_refl eq_refl eq_refl)
                        (Forall2_nil _))))).
  reflexivity.
Defined.

Local Close Scope byte_scope.

(** ** Buffers shorter, longer or less terminated than the layout *)

Local Open Scope byte_scope.

(** X20: a Relation buffer with no zero byte behind the relation id never
    yields a message or an exception: the constructor is still in the loop
    of [read_string] after any number of turns. *)
Theorem Relation_without_terminator (fuel : nat) (rest : list byte) :
  ~ In x00 (skipn 4 rest) ->
  Relation.new fuel ("R" :: rest) = OutOfFuel.
Proof.
  intros Hz. unfold Relation.new, __init__.
  erewrite bind_ok by (apply read_byte1; reflexivity).
  unfold Relation.decode_buffer.
  change (negb (str_eqb _ _)) with false. cbv iota.
  erewrite bind_ok by apply read_int32_eq.
  rewrite bind_out_of_fuel; [reflexivity|].
  unfold read_string. apply bind_out_of_fuel.
  apply read_string_loop_unterminated.
  now rewrite remaining_seek_min, remaining_at_1.
Qed.

Lemma Relation_without_terminator_witness :
  Relation.new 1000 ["R"; x00; x00; x00; x00; "p"; "u"; "b"] = OutOfFuel.
Proof.
  apply (Relation_without_terminator 1000
           [x00; x00; x00; x00; "p"; "u"; "b"]).
  simpl. intros H. repeat destruct H as [H|H]; try discriminate H; exact H.
Defined.

(** X21: a Begin message of 21 bytes, with a four-byte xid as PostgreSQL
    sends it, decodes like this: [tx_xid] is the signed 32-bit integer at
    bytes 17 to 20, the eight-byte read getting the four bytes that are
    left. *)
Theorem Begin_with_four_byte_xid (buffer : list byte) :
  length buffer = 21%nat ->
  slice 0 1 buffer = ["B"] ->
  Begin.new buffer
  = outcome_map
      (fun ts =>
         Begin.mk (lit "B") (convert_bytes_to_int (slice 1 9 buffer)) ts
                  (convert_bytes_to_int (slice 17 21 buffer)))
      (convert_pg_ts (convert_bytes_to_int (slice 9 17 buffer)))
  /\ - 2 ^ 31 <= convert_bytes_to_int (slice 17 21 buffer) < 2 ^ 31.
Proof.
  intros Hl H. apply starts_with in H as [rest ->].
  simpl in Hl. injection Hl as Hl.
  assert (E : firstn 8 (skipn 16 rest) = firstn 4 (skipn 16 rest)).
  { rewrite !firstn_all2; [reflexivity| |]; rewrite length_skipn; lia. }
  split.
  - rewrite Begin_new_eq, E. reflexivity.
  - change (slice 17 21 ("B" :: rest)) with (firstn 4 (skipn 16 rest)).
    pose proof (convert_firstn_signed_range 4 (skipn 16 rest) ltac:(lia))
      as R.
    exact R.
Qed.

Lemma Begin_with_four_byte_xid_witness :
  Begin.new ["B"; x00; x00; x00; x00; x00; x00; x00; x64;
             x00; x00; x00; x00; x00; x00; x00; x01;
             xff; xff; xff; xfe]
  = Ok (Begin.mk (lit "B") 100
          (mkDatetime (micros (datetime_jan1 2000) + 1)) (-2)).
Proof.
  apply (proj1 (Begin_with_four_byte_xid
                  ["B"; x00; x00; x00; x00; x00; x00; x00; x64;
                   x00; x00; x00; x00; x00; x00; x00; x01;
                   xff; xff; xff; xfe] eq_refl eq_refl)).
Defined.

(** X22: Begin looks at the first 25 bytes of its buffer and Commit at the
    first 26: bytes behind them change nothing. *)
Theorem trailing_bytes_ignored (buffer extra : list byte) :
  (slice 0 1 buffer = ["B"] -> (25 <= length buffer)%nat ->
   Begin.new (buffer ++ extra) = Begin.new buffer)
  /\ (slice 0 1 buffer = ["C"] -> (26 <= length buffer)%nat ->
      Commit.new (buffer ++ extra) = Commit.new buffer).
Proof.
  assert (F : forall k n (l : list byte),
             (n + k <= length l)%nat ->
             firstn k (skipn n (l ++ extra)) = firstn k (skipn n l)).
  { intros k n l Hl. rewrite skipn_app, firstn_app, length_skipn.
    replace (n - length l)%nat with 0%nat by lia.
    replace (k - (length l - n))%nat with 0%nat by lia.
    simpl. now rewrite app_nil_r. }
  split; intros H Hl; apply starts_with in H as [rest ->];
    simpl in Hl; rewrite <- app_comm_cons.
  - rewrite !Begin_new_eq.
    rewrite (F 8%nat 16%nat rest), (F 8%nat 8%nat rest) by lia.
    change (firstn 8 (rest ++ extra))
      with (firstn 8 (skipn 0 (rest ++ extra))).
    rewrite (F 8%nat 0%nat rest) by lia. reflexivity.
  - rewrite !Commit_new_eq.
    rewrite (F 8%nat 17%nat rest), (F 8%nat 9%nat rest),
      (F 8%nat 1%nat rest) by lia.
    change (firstn 1 (rest ++ extra))
      with (firstn 1 (skipn 0 (rest ++ extra))).
    rewrite (F 1%nat 0%nat rest) by lia. reflexivity.
Qed.

Lemma trailing_bytes_ignored_witness :
  Commit.new (["C"; x00;
               x00; x00; x00; x00; x00; x00; x01; x00;
               x00; x00; x00; x00; x00; x00; x01; x30;
               x00; x00; x00; x00; x00; x00; x00; x05] ++ [xff; xff])
  = Commit.new ["C"; x00;
                x00; x00; x00; x00; x00; x00; x01; x00;
                x00; x00; x00; x00; x00; x00; x01; x30;
                x00; x00; x00; x00; x00; x00; x00; x05].
Proof.
  apply (proj2 (trailing_bytes_ignored
                  ["C"; x00;
                   x00; x00; x00; x00; x00; x00; x01; x00;
                   x00; x00; x00; x00; x00; x00; x01; x30;
                   x00; x00; x00; x00; x00; x00; x00; x05] [xff; xff])).
  - reflexivity.
  - simpl. lia.
Defined.

Local Close Scope byte_scope.
